(** * Verification of the tee-time discovery agent

    A shallow embedding of [src/tools.ts] (the tools and their
    registry, the [executions] table) and of [src/server.ts]
    ([DashAgent.browse], [DashAgent.onChatMessage],
    [DashAgent.executeTask], the [fetch] handler).

    Conventions.
    - JavaScript strings are [string]; the case-insensitive flag of the
      regular expressions only ever folds ASCII letters (without the [u]
      flag a non-ASCII code unit never canonicalises to an ASCII one), so
      folding bytes is exact for the patterns of this program.
    - [null] is [None]; a value of type [string | null] is [option string].
    - [console.log] and [console.error] are diagnostics and are not
      modelled.
    - Every awaited call into the browser may reject; what it does is
      decided by a [World], the behaviour of everything outside the
      program: what rejects, what the URLs load, where a click leads,
      and what the listeners of a page do when an event is dispatched.
    - A document has a mode; [waitForSelector] with [visible: true]
      looks at the first match of its selector, as [$eval] does.
    - The methods of the agent's base class ([schedule],
      [getSchedules], [cancelSchedule], [saveMessages]) are the
      library's and are taken as parameters. *)

From Stdlib Require Import String Ascii List Bool Arith NArith Lia.
From Stdlib Require Import DecimalString.
Import ListNotations.

Set Warnings "-register-all".

Local Open Scope string_scope.
Local Open Scope list_scope.

(* ================================================================== *)
(** * Strings *)

Module Str.

Definition is_upper (c : ascii) : bool :=
  let n := nat_of_ascii c in ((65 <=? n) && (n <=? 90))%nat.

Definition is_lower (c : ascii) : bool :=
  let n := nat_of_ascii c in ((97 <=? n) && (n <=? 122))%nat.

Definition lower_ascii (c : ascii) : ascii :=
  if is_upper c then ascii_of_nat (nat_of_ascii c + 32) else c.

Definition upper_ascii (c : ascii) : ascii :=
  if is_lower c then ascii_of_nat (nat_of_ascii c - 32) else c.

(** [s.toLowerCase()] on tag names. *)
Fixpoint toLowerCase (s : string) : string :=
  match s with
  | EmptyString => EmptyString
  | String c s' => String (lower_ascii c) (toLowerCase s')
  end.

(** [s.startsWith(p)]. *)
Fixpoint startsWith (p s : string) : bool :=
  match p, s with
  | EmptyString, _ => true
  | String a p', String b s' => Ascii.eqb a b && startsWith p' s'
  | String _ _, EmptyString => false
  end.

(** [s.includes(p)]. *)
Fixpoint includes (p s : string) : bool :=
  startsWith p s ||
  match s with
  | EmptyString => false
  | String _ s' => includes p s'
  end.

(** Drop the first [n] characters. *)
Fixpoint drop (n : nat) (s : string) : string :=
  match n, s with
  | O, _ => s
  | S n', String _ s' => drop n' s'
  | S _, EmptyString => EmptyString
  end.

(** The longest prefix whose characters all satisfy [p]. *)
Fixpoint takeWhile (p : ascii -> bool) (s : string) : string :=
  match s with
  | EmptyString => EmptyString
  | String c s' => if p c then String c (takeWhile p s') else EmptyString
  end.

Definition is_space (c : ascii) : bool :=
  let n := nat_of_ascii c in
  ((n =? 32) || (n =? 9) || (n =? 10) || (n =? 12) || (n =? 13))%nat.

(** Split on ASCII white space, as a [class] attribute is split into
    tokens. [cur] is the token being read. *)
Fixpoint tokens_aux (cur : string) (s : string) : list string :=
  match s with
  | EmptyString =>
      match cur with EmptyString => [] | _ => [cur] end
  | String c s' =>
      if is_space c
      then match cur with
           | EmptyString => tokens_aux EmptyString s'
           | _ => cur :: tokens_aux EmptyString s'
           end
      else tokens_aux (cur ++ String c EmptyString)%string s'
  end.

Definition tokens (s : string) : list string := tokens_aux EmptyString s.

End Str.

(* ================================================================== *)
(** * Regular expressions

    The fragment of JavaScript regular expressions that the program uses
    with [RegExp.prototype.test]: literals, concatenation, alternation and
    the optional group.  [test] only asks whether some substring matches,
    so greediness and capture groups play no part. *)

Module Regex.

Inductive regex : Type :=
| Nul : regex                       (* matches nothing *)
| Eps : regex                       (* matches the empty string *)
| Chr : ascii -> regex
| Cat : regex -> regex -> regex
| Alt : regex -> regex -> regex.

(** [(r)?] *)
Definition Opt (r : regex) : regex := Alt r Eps.

(** A literal run of characters. *)
Fixpoint Lit (s : string) : regex :=
  match s with
  | EmptyString => Eps
  | String c s' => Cat (Chr c) (Lit s')
  end.

Fixpoint nullable (r : regex) : bool :=
  match r with
  | Nul => false
  | Eps => true
  | Chr _ => false
  | Cat a b => nullable a && nullable b
  | Alt a b => nullable a || nullable b
  end.

(** Character comparison; under the [i] flag both sides are
    canonicalised (upper-cased). *)
Definition chr_eq (i : bool) (a b : ascii) : bool :=
  if i then Ascii.eqb (Str.upper_ascii a) (Str.upper_ascii b)
  else Ascii.eqb a b.

(** Brzozowski derivative. *)
Fixpoint deriv (i : bool) (c : ascii) (r : regex) : regex :=
  match r with
  | Nul => Nul
  | Eps => Nul
  | Chr a => if chr_eq i a c then Eps else Nul
  | Cat a b =>
      if nullable a
      then Alt (Cat (deriv i c a) b) (deriv i c b)
      else Cat (deriv i c a) b
  | Alt a b => Alt (deriv i c a) (deriv i c b)
  end.

(** Does some prefix of [s] match [r]? *)
Fixpoint match_prefix (i : bool) (s : string) (r : regex) : bool :=
  nullable r ||
  match s with
  | EmptyString => false
  | String c s' => match_prefix i s' (deriv i c r)
  end.

(** [regex.test(s)] for a pattern without anchors: a match may start at
    any position. *)
Fixpoint test (i : bool) (r : regex) (s : string) : bool :=
  match_prefix i s r ||
  match s with
  | EmptyString => false
  | String _ s' => test i r s'
  end.

(** The strings that a pattern matches as a whole, against which the
    matcher is checked. *)
Inductive lang (i : bool) : regex -> string -> Prop :=
| lang_eps : lang i Eps ""
| lang_chr (a c : ascii) : chr_eq i a c = true -> lang i (Chr a) (String c "")
| lang_cat (r1 r2 : regex) (s1 s2 : string) :
    lang i r1 s1 -> lang i r2 s2 -> lang i (Cat r1 r2) (s1 ++ s2)
| lang_alt_l (r1 r2 : regex) (s : string) : lang i r1 s -> lang i (Alt r1 r2) s
| lang_alt_r (r1 r2 : regex) (s : string) : lang i r2 s -> lang i (Alt r1 r2) s.

End Regex.

(* ================================================================== *)
(** * The document object model *)

Module Dom.

(** A node of the page.  [attributes] holds, for [href], the resolved
    URL that the [href] property of an anchor yields.  [visible] is what
    the browser's visibility check of [waitForSelector] answers. *)
Inductive Node : Type :=
| TextNode (data : string)
| Element (tagName : string) (attributes : list (string * string))
          (visible : bool) (childNodes : list Node).

Definition tagName (n : Node) : string :=
  match n with TextNode _ => "#text" | Element t _ _ _ => t end.

Definition isVisible (n : Node) : bool :=
  match n with TextNode _ => false | Element _ _ v _ => v end.

Fixpoint lookup (k : string) (l : list (string * string)) : option string :=
  match l with
  | [] => None
  | (k', v) :: l' => if String.eqb k k' then Some v else lookup k l'
  end.

Definition getAttribute (a : string) (n : Node) : option string :=
  match n with TextNode _ => None | Element _ attrs _ _ => lookup a attrs end.

(** [(el as HTMLAnchorElement).href]: the empty string when the anchor
    has no [href] attribute. *)
Definition href (n : Node) : string :=
  match getAttribute "href" n with Some u => u | None => "" end.

(** [el.textContent]: the text of all descendants, in document order. *)
Fixpoint textContent (n : Node) : string :=
  match n with
  | TextNode d => d
  | Element _ _ _ kids => String.concat "" (map textContent kids)
  end.

(** The elements of a subtree in document order, its root first. *)
Fixpoint elementsOf (n : Node) : list Node :=
  match n with
  | TextNode _ => []
  | Element _ _ _ kids => n :: flat_map elementsOf kids
  end.

Definition descendants (n : Node) : list Node :=
  match n with
  | TextNode _ => []
  | Element _ _ _ kids => flat_map elementsOf kids
  end.

(** ** Selectors

    The selector strings of the program, parsed: a selector is a
    comma-separated list of compound selectors, a compound selector a
    conjunction of simple ones. *)
Inductive Simple : Type :=
| TypeSel (tag : string)            (* [input] *)
| ClassSel (name : string)          (* [.datepicker] *)
| AttrEq (a v : string)             (* [[type="date"]] *)
| AttrSub (a v : string).           (* [[name*="date"]] *)

Definition Compound : Type := list Simple.
Definition Selector : Type := list Compound.

(** A document: its tree and its mode.  [quirksMode] is
    [document.compatMode === "BackCompat"]; in such a document the class
    names of a selector are compared without regard to ASCII case. *)
Record Document : Type := {
  quirksMode : bool;
  documentElement : Node
}.

(** A document in standards mode. *)
Definition standards (root : Node) : Document :=
  {| quirksMode := false; documentElement := root |}.

Definition matchesSimple (quirks : bool) (s : Simple) (n : Node) : bool :=
  match s with
  | TypeSel tag => String.eqb (Str.toLowerCase (tagName n)) tag
  | ClassSel name =>
      match getAttribute "class" n with
      | Some cls =>
          existsb (fun token =>
                     if quirks
                     then String.eqb (Str.toLowerCase name)
                                     (Str.toLowerCase token)
                     else String.eqb name token)
                  (Str.tokens cls)
      | None => false
      end
  | AttrEq a v =>
      (* in an HTML document the value of [type] is compared without
         regard to ASCII case *)
      match getAttribute a n with
      | Some x =>
          if String.eqb a "type"
          then String.eqb (Str.toLowerCase x) (Str.toLowerCase v)
          else String.eqb x v
      | None => false
      end
  | AttrSub a v =>
      match getAttribute a n with
      | Some x => negb (String.eqb v "") && Str.includes v x
      | None => false
      end
  end.

Definition matches (quirks : bool) (sel : Selector) (n : Node) : bool :=
  existsb (fun c => forallb (fun s => matchesSimple quirks s n) c) sel.

(** [document.querySelectorAll(sel)] *)
Definition querySelectorAll (sel : Selector) (doc : Document) : list Node :=
  filter (matches (quirksMode doc) sel) (elementsOf (documentElement doc)).

(** [document.querySelector(sel)]: the first match in document order. *)
Definition querySelector (sel : Selector) (doc : Document) : option Node :=
  hd_error (querySelectorAll sel doc).

(** A selector without class names: the mode of the document plays no
    part in what it matches. *)
Definition classFree (sel : Selector) : bool :=
  forallb (forallb (fun s => match s with ClassSel _ => false | _ => true end))
          sel.

(** [el.querySelector(sel)] for a selector without class names, as the
    program calls it (with [a]): the first matching descendant of
    [el]. *)
Definition querySelectorIn (sel : Selector) (el : Node) : option Node :=
  hd_error (filter (matches false sel) (descendants el)).

End Dom.

(* ================================================================== *)
(** * Effects: state and exceptions *)

Module Eff.

(** What an [async] function does: it returns or it throws.  A thrown
    value is carried as its rendering [String(error)]. *)
Inductive Outcome (A : Type) : Type :=
| Ret (a : A)
| Throw (e : string).
Arguments Ret {A} a.
Arguments Throw {A} e.

Definition M (S A : Type) : Type := S -> Outcome A * S.

Definition ret {S A} (a : A) : M S A := fun s => (Ret a, s).

Definition throw {S A} (e : string) : M S A := fun s => (Throw e, s).

Definition bind {S A B} (m : M S A) (k : A -> M S B) : M S B :=
  fun s =>
    match m s with
    | (Ret a, s') => k a s'
    | (Throw e, s') => (Throw e, s')
    end.

(** [try { body } catch (error) { handler }] *)
Definition try_catch {S A} (body : M S A) (handler : string -> M S A)
  : M S A :=
  fun s =>
    match body s with
    | (Ret a, s') => (Ret a, s')
    | (Throw e, s') => handler e s'
    end.

(** [try { body } finally { fin }]: [fin] runs on both exits, and an
    exception of [fin] replaces the outcome of [body]. *)
Definition try_finally {S A} (body : M S A) (fin : M S unit) : M S A :=
  fun s =>
    match body s with
    | (r, s') =>
        match fin s' with
        | (Ret _, s'') => (r, s'')
        | (Throw e, s'') => (Throw e, s'')
        end
    end.

Definition get {S} : M S S := fun s => (Ret s, s).
Definition modify {S} (f : S -> S) : M S unit := fun s => (Ret tt, f s).

End Eff.

Import Eff.

Notation "x <- m ;; k" := (bind m (fun x => k))
  (at level 61, m at next level, right associativity).
Notation "m ;;; k" := (bind m (fun _ => k))
  (at level 61, right associativity).

(* ================================================================== *)
(** * The browser boundary

    The page-automation library ([@cloudflare/puppeteer]) is outside the
    program.  Its calls are modelled as operations on a [State] holding
    the live page; what the network and the pages answer is read from a
    [World]. *)

Module Browser.

Import Dom.

(** What a loaded page offers: [page.url()], [page.content()] and the
    document that the selectors are run against. *)
Record PageContent : Type := {
  pc_url : string;
  pc_html : string;
  pc_document : Document
}.

(** The page of a new tab; [about:blank] has no doctype and is in
    quirks mode. *)
Definition blank : PageContent :=
  {| pc_url := "about:blank";
     pc_html := "";
     pc_document :=
       {| quirksMode := true; documentElement := Element "HTML" [] true [] |} |}.

(** The awaited calls into the library, with their arguments.  A handle
    of a browser or of a page is the tick at which it was created;
    [None] as the owner of a page is the browser binding of the
    environment. *)
Inductive Op : Type :=
| OpLaunch
| OpNewPage (owner : option nat)
| OpGoto (url : string)
| OpWaitForSelector (sel : Selector) (timeout : option N) (vis : bool)
| OpEvaluate
| OpEval (sel : Selector)
| OpEvalAll (sel : Selector)
| OpContent
| OpWaitForNavigation (timeout : N)
| OpPageClose (p : nat)
| OpBrowserClose (b : nat).

(** What can be observed of a run. *)
Inductive Event : Type :=
| Call (op : Op)                          (* the call was issued *)
| Launched (b : nat)                      (* a browser session exists *)
| PageOpened (owner : option nat) (p : nat) (* a page exists *)
| Click (el : Node)
| SetValue (el : Node) (value : string)
| Dispatch (el : Node) (type : string) (bubbles : bool)
| Sleep (ms : N)
| Unhandled (e : string).                 (* a rejection nobody awaits *)

(** One entry of the array that [browse] returns: a string (the HTML
    of a page, or an error message) or the list of the links. *)
Inductive Response : Type :=
| RString (s : string)
| RLinks (links : list string).

(** A scheduled task as the agent lists it. *)
Record Schedule : Type := {
  sch_id : string;
  sch_callback : string;
  sch_payload : string
}.

Record World : Type := {
  (** [agentContext.getStore()] yields an agent *)
  w_agent : bool;
  (** [this.env?.MYBROWSER] is bound *)
  w_MYBROWSER : bool;
  (** the call issued at a tick rejects with this error *)
  w_fault : nat -> Op -> option string;
  (** the page that a URL loads *)
  w_site : string -> PageContent;
  (** the URL that a click on an element navigates to, if any *)
  w_click : Node -> option string;
  (** the page as its listeners leave it once they have handled an
      event of this type on an element holding this value: they may
      rewrite the document or navigate *)
  w_dispatch : PageContent -> Node -> string -> string -> PageContent;
  (** rendering of the library's [TimeoutError] for a call *)
  w_timeoutError : Op -> string;
  (** rendering of the error of [$eval] on a selector without match *)
  w_noElementError : Selector -> string;
  (** the promise of [agent.schedule(input, callback, payload)], an
      [async] method, rejects with this error *)
  w_schedule : string -> string -> string -> option string;
  (** [agent.getSchedules()]: throws, or yields the tasks if any *)
  w_getSchedules : string + option (list Schedule);
  (** [agent.cancelSchedule(id)] rejects with this error *)
  w_cancelSchedule : string -> option string
}.

Record State : Type := {
  st_tick : nat;
  st_log : list Event;
  st_page : PageContent;
  (** a navigation started by a click and not yet awaited *)
  st_pending : option string;
  (** the array [responses] of the running [browse] *)
  st_responses : list Response;
  (** the variable [page] of the running [findTeeTimes] *)
  st_pageVar : option nat
}.

Definition init : State :=
  {| st_tick := 0; st_log := []; st_page := blank;
     st_pending := None; st_responses := []; st_pageVar := None |}.

Definition emit (e : Event) : M State unit :=
  modify (fun s =>
    {| st_tick := st_tick s; st_log := st_log s ++ [e];
       st_page := st_page s; st_pending := st_pending s;
       st_responses := st_responses s; st_pageVar := st_pageVar s |}).

Definition setPage (pc : PageContent) (pending : option string)
  : M State unit :=
  modify (fun s =>
    {| st_tick := st_tick s; st_log := st_log s;
       st_page := pc; st_pending := pending;
       st_responses := st_responses s; st_pageVar := st_pageVar s |}).

Definition setResponses (f : list Response -> list Response)
  : M State unit :=
  modify (fun s =>
    {| st_tick := st_tick s; st_log := st_log s;
       st_page := st_page s; st_pending := st_pending s;
       st_responses := f (st_responses s); st_pageVar := st_pageVar s |}).

Definition setPageVar (p : option nat) : M State unit :=
  modify (fun s =>
    {| st_tick := st_tick s; st_log := st_log s;
       st_page := st_page s; st_pending := st_pending s;
       st_responses := st_responses s; st_pageVar := p |}).

Section WithWorld.

Variable w : World.

(** Issue a call: it is logged, the clock advances, and the world
    decides whether it rejects.  Yields the tick of the call. *)
Definition call (op : Op) : M State nat :=
  fun s =>
    let s' := {| st_tick := S (st_tick s);
                 st_log := st_log s ++ [Call op];
                 st_page := st_page s; st_pending := st_pending s;
                 st_responses := st_responses s;
                 st_pageVar := st_pageVar s |} in
    match w_fault w (st_tick s) op with
    | Some e => (Throw e, s')
    | None => (Ret (st_tick s), s')
    end.

(** [puppeteer.launch(browserInstance)] *)
Definition launch : M State nat :=
  b <- call OpLaunch ;;
  emit (Launched b) ;;;
  ret b.

(** [browser.newPage()] *)
Definition newPage (owner : option nat) : M State nat :=
  p <- call (OpNewPage owner) ;;
  emit (PageOpened owner p) ;;;
  setPage blank None ;;;
  ret p.

(** [page.goto(url, ...)] *)
Definition goto (url : string) : M State unit :=
  call (OpGoto url) ;;;
  setPage (w_site w url) None.

(** What [waitForSelector] waits for: the first match of the selector
    and, with [visible: true], that this element is visible. *)
Definition present (sel : Selector) (vis : bool) (doc : Document) : bool :=
  match querySelector sel doc with
  | Some el => if vis then isVisible el else true
  | None => false
  end.

(** [page.waitForSelector(sel, { timeout, visible })] *)
Definition waitForSelector (sel : Selector) (timeout : option N)
           (vis : bool) : M State unit :=
  let op := OpWaitForSelector sel timeout vis in
  call op ;;;
  s <- get ;;
  if present sel vis (pc_document (st_page s))
  then ret tt
  else throw (w_timeoutError w op).

(** [page.evaluate(f)] for a callback [f] of the document. *)
Definition evaluate {A} (f : Document -> M State A) : M State A :=
  call OpEvaluate ;;;
  s <- get ;;
  f (pc_document (st_page s)).

(** [page.$eval(sel, f)]: [f] runs on the first match of [sel]. *)
Definition eval_ {A} (sel : Selector) (f : Node -> M State A)
  : M State A :=
  call (OpEval sel) ;;;
  s <- get ;;
  match querySelector sel (pc_document (st_page s)) with
  | Some el => f el
  | None => throw (w_noElementError w sel)
  end.

(** [page.$$eval(sel, f)] for a pure [f] of the matches. *)
Definition evalAll {A} (sel : Selector) (f : list Node -> A)
  : M State A :=
  call (OpEvalAll sel) ;;;
  s <- get ;;
  ret (f (querySelectorAll sel (pc_document (st_page s)))).

(** [page.content()] *)
Definition content : M State string :=
  call OpContent ;;;
  s <- get ;;
  ret (pc_html (st_page s)).

(** [page.url()], synchronous. *)
Definition url : M State string :=
  s <- get ;;
  ret (pc_url (st_page s)).

(** [(el as HTMLElement).click()] inside the page. *)
Definition click (el : Node) : M State unit :=
  emit (Click el) ;;;
  s <- get ;;
  setPage (st_page s) (w_click w el).

(** [el.dispatchEvent(new Event(type, { bubbles }))] inside the page,
    on an element whose [value] is [value]: the listeners of the page
    run. *)
Definition dispatchEvent (el : Node) (value type : string) (bubbles : bool)
  : M State unit :=
  emit (Dispatch el type bubbles) ;;;
  s <- get ;;
  setPage (w_dispatch w (st_page s) el value type) (st_pending s).

(** [page.waitForNavigation({ waitUntil, timeout })] *)
Definition waitForNavigation (timeout : N) : M State unit :=
  let op := OpWaitForNavigation timeout in
  call op ;;;
  s <- get ;;
  match st_pending s with
  | Some u => setPage (w_site w u) None
  | None => throw (w_timeoutError w op)
  end.

(** [page.close()] and [browser.close()] *)
Definition closePage (p : nat) : M State unit :=
  call (OpPageClose p) ;;; ret tt.

Definition closeBrowser (b : nat) : M State unit :=
  call (OpBrowserClose b) ;;; ret tt.

(** [await new Promise(resolve => setTimeout(resolve, ms))] *)
Definition sleep (ms : N) : M State unit := emit (Sleep ms).

(** A call of an [async] function whose promise is not awaited: the
    caller goes on at once, nothing is thrown to it, and a rejection
    is left unhandled. *)
Definition detached (rejection : option string) : M State unit :=
  match rejection with
  | Some e => emit (Unhandled e)
  | None => ret tt
  end.

End WithWorld.

End Browser.

(* ================================================================== *)
(** * [src/server.ts] *)

Module Server.

Import Dom Browser.

Definition sel_a : Selector := [[TypeSel "a"]].
Definition sel_body : Selector := [[TypeSel "body"]].

Section WithWorld.

Variable w : World.

(** The body of the loop of [browse]: one [try]/[catch] per URL. *)
Definition browse_url (url : string) (returnHtml : bool)
  : M State unit :=
  try_catch
    (browser <- launch w ;;
     page <- newPage w (Some browser) ;;
     goto w url ;;;
     waitForSelector w sel_body None false ;;;
     (if returnHtml
      then html <- content w ;;
           setResponses (fun r => r ++ [RString html])
      else links <- evalAll w sel_a (map href) ;;
           setResponses (fun r => r ++ [RLinks links])) ;;;
     closeBrowser w browser)
    (fun error =>
       setResponses (fun r =>
         r ++ [RString ("Error browsing URL " ++ url ++ ": "
                        ++ error)%string])).

(** [for (const url of urls) { ... }] *)
Fixpoint browse_loop (urls : list string) (returnHtml : bool)
  : M State unit :=
  match urls with
  | [] => ret tt
  | url :: rest =>
      browse_url url returnHtml ;;; browse_loop rest returnHtml
  end.

(** [DashAgent.browse(browserInstance, urls, options)] *)
Definition browse (urls : list string) (returnHtml : bool)
  : M State (list Response) :=
  setResponses (fun _ => []) ;;;
  browse_loop urls returnHtml ;;;
  s <- get ;;
  ret (st_responses s).

End WithWorld.

End Server.

(* ================================================================== *)
(** * [src/tools.ts] *)

Module Tools.

Import Dom Browser.

(** The double quote character. *)
Definition dq : string := String (ascii_of_nat 34) EmptyString.

(** ** Pure helpers *)

Definition hexDigit (n : nat) : string :=
  match String.get n "0123456789ABCDEF" with
  | Some c => String c EmptyString
  | None => EmptyString
  end.

Definition unreserved (c : ascii) : bool :=
  let n := nat_of_ascii c in
  Str.is_upper c || Str.is_lower c || ((48 <=? n) && (n <=? 57))%nat ||
  existsb (Ascii.eqb c) (list_ascii_of_string "-_.!~*'()").

(** [encodeURIComponent(s)] on the UTF-8 bytes of [s]. *)
Fixpoint encodeURIComponent (s : string) : string :=
  match s with
  | EmptyString => EmptyString
  | String c s' =>
      if unreserved c
      then String c (encodeURIComponent s')
      else ("%" ++ hexDigit (nat_of_ascii c / 16)
                ++ hexDigit (nat_of_ascii c mod 16)
                ++ encodeURIComponent s')%string
  end.

Definition notAmpQuote (c : ascii) : bool :=
  negb (Ascii.eqb c "&"%char) && negb (Ascii.eqb c (ascii_of_nat 34)).

Definition resultLinkPrefix : string := ("<a href=" ++ dq ++ "/url?q=")%string.

(** A match of [<a href="\/url\?q=(https?:\/\/[^&"]+)] starting at the
    head of [s]; yields the capture group. *)
Definition resultLinkAt (s : string) : option string :=
  if Str.startsWith resultLinkPrefix s then
    let rest := Str.drop (String.length resultLinkPrefix) s in
    let capture (scheme : string) :=
      let tail := Str.takeWhile notAmpQuote
                    (Str.drop (String.length scheme) rest) in
      if String.eqb tail "" then None else Some (scheme ++ tail)%string in
    if Str.startsWith "https://" rest then capture "https://"
    else if Str.startsWith "http://" rest then capture "http://"
    else None
  else None.

(** [extractCourseUrl(html)]: the capture group of the leftmost match. *)
Fixpoint extractCourseUrl (html : string) : option string :=
  match resultLinkAt html with
  | Some u => Some u
  | None =>
      match html with
      | EmptyString => None
      | String _ html' => extractCourseUrl html'
      end
  end.

(** [/tee times|book(ing)? tee times|reserve/i] *)
Definition teeTimesRegex : Regex.regex :=
  Regex.Alt (Regex.Lit "tee times")
    (Regex.Alt
       (Regex.Cat (Regex.Lit "book")
          (Regex.Cat (Regex.Opt (Regex.Lit "ing")) (Regex.Lit " tee times")))
       (Regex.Lit "reserve")).

Definition regex_test (s : string) : bool :=
  Regex.test true teeTimesRegex s.

(** [el.tagName.toLowerCase() === t] *)
Definition isTag (t : string) (el : Node) : bool :=
  String.eqb (Str.toLowerCase (tagName el)) t.

(** A JavaScript condition on a [string | null] value. *)
Definition truthy (v : option string) : bool :=
  match v with
  | Some s => negb (String.eqb s "")
  | None => false
  end.

Definition sel_a : Selector := [[TypeSel "a"]].
Definition sel_button : Selector := [[TypeSel "button"]].
Definition sel_a_button : Selector := [[TypeSel "a"]; [TypeSel "button"]].

Definition linkSelectors : list Selector := [sel_a; sel_button].

Definition dateSelectors : list Selector :=
  [ [[TypeSel "input"; AttrEq "type" "date"]];   (* input[type="date"] *)
    [[TypeSel "input"; AttrSub "name" "date"]];  (* input[name*="date"] *)
    [[TypeSel "input"; AttrSub "id" "date"]];    (* input[id*="date"] *)
    [[ClassSel "datepicker"]];                   (* .datepicker *)
    [[ClassSel "date-picker"]];                  (* .date-picker *)
    [[AttrSub "aria-label" "date"]] ].           (* [aria-label*="date"] *)

(** The loop of the first in-page callback of [findTeeTimes]: the
    entry-point matcher. *)
Fixpoint scanElements (elements : list Node) : option string :=
  match elements with
  | [] => None
  | el :: rest =>
      if regex_test (textContent el) then
        if isTag "a" el then Some (href el)
        else if isTag "button" el then
          match querySelectorIn sel_a el with
          | Some linkInside => Some (href linkInside)
          | None => None
          end
        else scanElements rest
      else scanElements rest
  end.

(** The first in-page callback: [(sel) => { ... }]. *)
Definition entryPoint (sel : Selector) (document : Document)
  : option string :=
  scanElements (querySelectorAll sel document).

Definition isInput (el : Node) : bool := isTag "input" el.

(** The [when] of [unstable_scheduleSchema]; a payload is carried as
    its rendering in a template string. *)
Inductive When : Type :=
| NoSchedule
| ScheduledAt (date : string)
| Delayed (delayInSeconds : string)
| Cron (cron : string).

Definition whenType (when : When) : string :=
  match when with
  | NoSchedule => "no-schedule"
  | ScheduledAt _ => "scheduled"
  | Delayed _ => "delayed"
  | Cron _ => "cron"
  end.

Definition whenInput (when : When) : option string :=
  match when with
  | NoSchedule => None
  | ScheduledAt date => Some date
  | Delayed delayInSeconds => Some delayInSeconds
  | Cron cron => Some cron
  end.

(** What a tool hands back to the model. *)
Inductive ToolResult : Type :=
| TString (s : string)
| TTasks (tasks : list Schedule)
| TResponses (responses : list Response).

Section WithWorld.

Variable w : World.

(** [for (const selector of linkSelectors) { ... }]; the argument
    [teeTimesHref] is the variable that the loop assigns. *)
Fixpoint locate (selectors : list Selector) (teeTimesHref : option string)
  : M State (option string) :=
  match selectors with
  | [] => ret teeTimesHref
  | selector :: rest =>
      found <- try_catch
                 (waitForSelector w selector (Some 5000%N) true ;;; ret true)
                 (fun _ => ret false) ;;
      if found then
        teeTimesHref' <- evaluate w (fun doc => ret (entryPoint selector doc)) ;;
        if truthy teeTimesHref' then ret teeTimesHref'
        else locate rest teeTimesHref'
      else locate rest teeTimesHref
  end.

(** The loop of the second in-page callback: click the first element
    whose text matches. *)
Fixpoint clickFirst (elements : list Node) : M State bool :=
  match elements with
  | [] => ret false
  | el :: rest =>
      if regex_test (textContent el)
      then click w el ;;; ret true
      else clickFirst rest
  end.

(** The body of one round of the loop over [dateSelectors]; [true]
    when the date was set (the loop then breaks). *)
Definition trySelector (sel : Selector) (date : string) : M State bool :=
  try_catch
    (waitForSelector w sel (Some 3000%N) true ;;;
     isInput <- eval_ w sel (fun el => ret (isInput el)) ;;
     if isInput then
       eval_ w sel (fun el =>
         emit (SetValue el date) ;;;
         dispatchEvent w el date "input" true ;;;
         dispatchEvent w el date "change" true) ;;;
       ret true
     else ret false)
    (fun _ => ret false).

(** [for (const sel of dateSelectors) { ... }], yielding [dateSet]. *)
Fixpoint setDate (selectors : list Selector) (date : string)
  : M State bool :=
  match selectors with
  | [] => ret false
  | sel :: rest =>
      dateSet <- trySelector sel date ;;
      if dateSet then ret true else setDate rest date
  end.

(** [if (date) { ... }] *)
Definition primeDate (date : option string) : M State unit :=
  if truthy date then
    dateSet <- setDate dateSelectors
                 (match date with Some d => d | None => "" end) ;;
    if dateSet then sleep 2000%N else ret tt
  else ret tt.

(** The tail of the inner [try] block: date priming and the report. *)
Definition report (date : option string) : M State string :=
  primeDate date ;;;
  finalUrl <- url ;;
  ret finalUrl.

Definition notFound : string :=
  "No tee times link or button found on the landing page.".

(** From the landing page to the tee-times page. *)
Definition follow (date : option string) : M State string :=
  teeTimesHref <- locate linkSelectors None ;;
  if negb (truthy teeTimesHref) then
    clicked <- evaluate w (fun doc =>
                 clickFirst (querySelectorAll sel_a_button doc)) ;;
    if negb clicked then ret notFound
    else
      waitForNavigation w 10000%N ;;;
      report date
  else
    goto w (match teeTimesHref with Some h => h | None => "" end) ;;;
    report date.

(** The inner [try] block of [findTeeTimes]. *)
Definition discover (courseUrl : string) (date : option string)
  : M State string :=
  page <- newPage w None ;;
  setPageVar (Some page) ;;;
  goto w courseUrl ;;;
  follow date.

(** The inner [try { ... } catch (error) { ... }]. *)
Definition guarded (courseUrl : string) (date : option string)
  : M State string :=
  try_catch
    (discover courseUrl date)
    (fun error => ret ("Error finding tee times: " ++ error)%string).

(** The [finally] block: [if (page) { await page.close(); }]. *)
Definition release : M State unit :=
  s <- get ;;
  match st_pageVar s with
  | Some page => closePage w page
  | None => ret tt
  end.

(** [let page = null; try { ... } catch { ... } finally { ... }] *)
Definition withPage (courseUrl : string) (date : option string)
  : M State string :=
  setPageVar None ;;;
  try_finally (guarded courseUrl date) release.

Definition googleSearchUrl (courseName : string) : string :=
  ("https://www.google.com/search?q=" ++
   encodeURIComponent (courseName ++ " golf course official website"))%string.

(** [findTeeTimes.execute({ courseName, date })] *)
Definition findTeeTimes (courseName : string) (date : option string)
  : M State string :=
  if negb (w_agent w)
  then throw "Error: No agent with a browse method found"
  else
    try_catch
      (if negb (w_MYBROWSER w)
       then throw "Error: Browser instance not found in agent environment"
       else
         searchResults <- Server.browse w [googleSearchUrl courseName] true ;;
         match hd_error searchResults with
         | None | Some (RString "") =>
             ret "No content returned from browsing Google search results."
         | Some (RLinks _) =>
             throw "TypeError: html.match is not a function"
         | Some (RString htmlContent) =>
             match extractCourseUrl htmlContent with
             | None =>
                 ret "No golf course website URL found in search results."
             | Some courseUrl =>
                 if String.eqb courseUrl "" then
                   ret "No golf course website URL found in search results."
                 else if negb (w_MYBROWSER w) then
                   throw "Error: Browser instance (Puppeteer) not found in agent environment"
                 else withPage courseUrl date
             end
         end)
      (fun error => ret ("Unexpected error: " ++ error)%string).

(** ** The other tools *)

(** [getLocalTime.execute({ location })] *)
Definition getLocalTime (location : string) : M State string :=
  ret "10am".

(** [agentContext.getStore()] and the guard that follows it. *)
Definition requireAgent (msg : string) : M State unit :=
  if negb (w_agent w) then throw msg else ret tt.

(** [scheduleTask.execute({ when, description })].  [agent.schedule] is
    called inside the [try] block without [await]: its promise is
    dropped, so a rejection never reaches the [catch] block, which
    would return the error message. *)
Definition scheduleTask (when : When) (description : string)
  : M State string :=
  requireAgent "Error: No agent found" ;;;
  match whenInput when with
  | None => ret "Not a valid schedule input"
  | Some input =>
      returned <-
        try_catch
          (detached (w_schedule w input "executeTask" description) ;;;
           ret None)
          (fun error =>
             ret (Some ("Error scheduling task: " ++ error)%string)) ;;
      match returned with
      | Some message => ret message
      | None =>
          ret ("Task scheduled for type " ++ dq ++ whenType when ++ dq
               ++ " : " ++ input)%string
      end
  end.

(** [getScheduledTasks.execute()] *)
Definition getScheduledTasks : M State ToolResult :=
  requireAgent "Error: No agent found" ;;;
  match w_getSchedules w with
  | inl error =>
      ret (TString ("Error listing scheduled tasks: " ++ error)%string)
  | inr None | inr (Some []) => ret (TString "No scheduled tasks found.")
  | inr (Some tasks) => ret (TTasks tasks)
  end.

(** [cancelScheduledTask.execute({ taskId })] *)
Definition cancelScheduledTask (taskId : string) : M State string :=
  requireAgent "Error: No agent found" ;;;
  match w_cancelSchedule w taskId with
  | None =>
      ret ("Task " ++ taskId ++ " has been successfully canceled.")%string
  | Some error =>
      ret ("Error canceling task " ++ taskId ++ ": " ++ error)%string
  end.

(** [findGolfCourseWebsite.execute({ courseName })] *)
Definition findGolfCourseWebsite (courseName : string) : M State string :=
  requireAgent "Error: No agent with a browse method found" ;;;
  try_catch
    (if negb (w_MYBROWSER w)
     then throw "Error: Browser instance (MYBROWSER) not found in agent environment"
     else
       searchResults <- Server.browse w [googleSearchUrl courseName] true ;;
       match hd_error searchResults with
       | None | Some (RString "") =>
           ret "No content returned from browsing Google search results."
       | Some (RLinks _) =>
           throw "TypeError: htmlContent.match is not a function"
       | Some (RString htmlContent) =>
           match extractCourseUrl htmlContent with
           | Some u =>
               if String.eqb u ""
               then ret "No golf course website URL found in search results."
               else ret u
           | None =>
               ret "No golf course website URL found in search results."
           end
       end)
    (fun error => ret ("Error finding golf course website: " ++ error)%string).

(** [tools.browse.execute({ urls })] *)
Definition browseTool (urls : list string) : M State ToolResult :=
  requireAgent "Error: No agent with a browse method found" ;;;
  try_catch
    (if negb (w_MYBROWSER w)
     then throw "Error: Browser instance (MYBROWSER) not found in agent environment"
     else
       result <- Server.browse w urls false ;;
       ret (TResponses result))
    (fun error => ret (TString ("Error during browsing: " ++ error)%string)).

(** ** The registry *)

(** A tool as [tool({ description, parameters, execute })] builds it;
    [execute] is absent for a tool that needs human confirmation. *)
Record Tool : Type := {
  description : string;
  parameters : Type;
  execute : option (parameters -> M State ToolResult)
}.

Definition str (m : M State string) : M State ToolResult :=
  s <- m ;; ret (TString s).

(** [export const tools = { ... }], in the order of the source. *)
Definition tools : list (string * Tool) :=
  [ ("getWeatherInformation",
     {| description := "show the weather in a given city to the user";
        parameters := string;
        execute := None |});
    ("getLocalTime",
     {| description := "get the local time for a specified location";
        parameters := string;
        execute := Some (fun location => str (getLocalTime location)) |});
    ("scheduleTask",
     {| description := "A tool to schedule a task to be executed at a later time";
        parameters := When * string;
        execute := Some (fun a => str (scheduleTask (fst a) (snd a))) |});
    ("getScheduledTasks",
     {| description := "List all tasks that have been scheduled";
        parameters := unit;
        execute := Some (fun _ => getScheduledTasks) |});
    ("cancelScheduledTask",
     {| description := "Cancel a scheduled task using its ID";
        parameters := string;
        execute := Some (fun taskId => str (cancelScheduledTask taskId)) |});
    ("browse",
     {| description := "Browse the web and extract structured data.";
        parameters := list string;
        execute := Some browseTool |});
    ("findGolfCourseWebsite",
     {| description := "Find the official website URL of a golf course by searching Google";
        parameters := string;
        execute := Some (fun c => str (findGolfCourseWebsite c)) |});
    ("findTeeTimes",
     {| description := "Find the tee times page URL for a golf course, optionally for a specific date";
        parameters := string * option string;
        execute := Some (fun a => str (findTeeTimes (fst a) (snd a))) |}) ].

(** A tool that needs human confirmation: defined without [execute]. *)
Definition confirmRequired (t : Tool) : bool :=
  match execute t with Some _ => false | None => true end.

End WithWorld.

(** [export const executions = { ... }] *)
Definition executions : list (string * (string -> M State string)) :=
  [ ("getWeatherInformation",
     fun city => ret ("The weather in " ++ city ++ " is sunny")%string) ].

(** [name in table] *)
Definition hasKey {A} (name : string) (table : list (string * A)) : bool :=
  existsb (fun e => String.eqb name (fst e)) table.

End Tools.

(* ================================================================== *)
(** * The chat turn of [src/server.ts] *)

Module Chat.

Inductive Role : Type := system | user | assistant | data.

(** [Message] of the [ai] package, the fields that the agent writes. *)
Record Message : Type := {
  id : string;
  role : Role;
  content : string;
  createdAt : N
}.

(** One [streamText({ ... }).mergeIntoDataStream(dataStream)]. *)
Record StreamText : Type := {
  st_system : string;
  st_messages : list Message;
  st_tools : bool;               (* the registry is passed *)
  st_maxSteps : option N
}.

(** The collaborators of the chat turn.  [processToolCalls] lives in
    [./utils]; the handler only depends on whether it returns or
    throws. *)
Record World : Type := {
  processToolCalls : list Message -> Outcome (list Message);
  (** this call of [streamText] throws *)
  streamFault : StreamText -> option string;
  (** [Date.now()] and [new Date()] in the handler *)
  dateNow : N;
  newDate : N
}.

Record State : Type := {
  messages : list Message;       (* [this.messages] *)
  dataStream : list StreamText   (* what was merged into the stream *)
}.

(** [`${n}`] for a number of milliseconds. *)
Definition showN (n : N) : string :=
  NilEmpty.string_of_uint (N.to_uint n).

Section WithWorld.

Variable w : World.

Definition streamText (call : StreamText) : M State unit :=
  match streamFault w call with
  | Some e => throw e
  | None =>
      modify (fun s => {| messages := messages s;
                          dataStream := dataStream s ++ [call] |})
  end.

Definition push (m : Message) : M State unit :=
  modify (fun s => {| messages := messages s ++ [m];
                      dataStream := dataStream s |}).

(** The message built in the [catch] block. *)
Definition errorMessage (error : string) : Message :=
  {| id := ("error-" ++ showN (dateNow w))%string;
     role := assistant;
     content :=
       ("I encountered an error while trying to perform a task: "
        ++ error
        ++ ". Let's continue our conversation. How can I assist you further?")%string;
     createdAt := newDate w |}.

(** The [execute] callback of [createDataStreamResponse] in
    [DashAgent.onChatMessage]. *)
Definition onChatMessage : M State unit :=
  try_catch
    (s <- get ;;
     processedMessages <-
       (fun s' => (processToolCalls w (messages s), s')) ;;
     streamText
       {| st_system := "You are a helpful assistant that can do various tasks.";
          st_messages := processedMessages;
          st_tools := true;
          st_maxSteps := Some 10%N |})
    (fun error =>
       push (errorMessage error) ;;;
       s <- get ;;
       streamText
         {| st_system := "You are a helpful assistant.";
            st_messages := messages s;
            st_tools := false;
            st_maxSteps := None |}).

End WithWorld.

End Chat.

(* ================================================================== *)
(** * The scheduled task of [src/server.ts] *)

Module Agent.

Import Chat.

(** The message that [executeTask] adds.  [newId] is what
    [generateId()] yields and [now] what [new Date()] yields. *)
Definition taskMessage (newId : string) (now : N) (description : string)
  : Message :=
  {| id := newId;
     role := user;
     content := ("Running scheduled task: " ++ description)%string;
     createdAt := now |}.

(** [DashAgent.executeTask(description, task)].  [saveMessages] is the
    method of the base class [AIChatAgent]; what it does with the array
    (it stores it and runs a chat turn over it) is the library's. *)
Definition executeTask (saveMessages : list Message -> M State unit)
           (newId : string) (now : N) (description : string)
  : M State unit :=
  s <- get ;;
  saveMessages (messages s ++ [taskMessage newId now description]).

End Agent.

(* ================================================================== *)
(** * The worker entry point of [src/server.ts] *)

Module Http.

(** The headers of a response: names are kept in lower case, as the
    [Headers] class compares them without regard to case. *)
Definition Headers : Type := list (string * string).

Fixpoint remove (name : string) (h : Headers) : Headers :=
  match h with
  | [] => []
  | (k, v) :: h' =>
      if String.eqb k name then remove name h' else (k, v) :: remove name h'
  end.

Fixpoint replace (name value : string) (h : Headers) : Headers :=
  match h with
  | [] => [(name, value)]
  | (k, v) :: h' =>
      if String.eqb k name
      then (name, value) :: remove name h'
      else (k, v) :: replace name value h'
  end.

(** [headers.set(name, value)] *)
Definition set (name value : string) (h : Headers) : Headers :=
  replace (Str.toLowerCase name) value h.

(** [headers.get(name)] *)
Definition get (name : string) (h : Headers) : option string :=
  Dom.lookup (Str.toLowerCase name) h.

Record Response : Type := {
  status : N;
  headers : Headers;
  body : option string
}.

(** What the handler reads of a request: the method, the path of its
    URL and its [Origin] header. *)
Record Request : Type := {
  method : string;
  pathname : string;
  origin : option string
}.

(** The collaborators of the handler. *)
Record World : Type := {
  (** [routeAgentRequest(request, env)]: throws, or yields a response
      or [null] *)
  routeAgentRequest : Request -> Outcome (option Response);
  (** [process.env.OPENAI_API_KEY] *)
  OPENAI_API_KEY : option string
}.

Definition allowedOrigins : list string :=
  [ "http://localhost:5173";
    "http://localhost:8788";
    "https://mulls.io";
    "https://agents.mulls.io";
    "https://dash.mulls.io" ].

(** [allowedOrigins.includes(origin)] *)
Definition includes (o : string) : bool :=
  existsb (String.eqb o) allowedOrigins.

(** [origin && allowedOrigins.includes(origin)] *)
Definition allowed (origin : option string) : bool :=
  match origin with
  | Some o => negb (String.eqb o "") && includes o
  | None => false
  end.

(** [withCORS(response, origin)] *)
Definition withCORS (response : Response) (origin : option string)
  : Response :=
  if allowed origin then
    {| status := status response;
       headers :=
         set "Access-Control-Allow-Methods" "GET, POST, OPTIONS"
           (set "Access-Control-Allow-Headers" "Content-Type, Authorization"
              (set "Access-Control-Allow-Credentials" "true"
                 (set "Access-Control-Allow-Origin"
                    (match origin with Some o => o | None => "" end)
                    (headers response))));
       body := body response |}
  else response.

(** [Response.json(data)] and [new Response(JSON.stringify(data),
    { status, headers: { "Content-Type": "application/json" } })] *)
Definition json (code : N) (text : string) : Response :=
  {| status := code;
     headers := set "Content-Type" "application/json" [];
     body := Some text |}.

Definition successBody (hasOpenAIKey : bool) : string :=
  ("{" ++ Tools.dq ++ "success" ++ Tools.dq ++ ":"
   ++ (if hasOpenAIKey then "true" else "false") ++ "}")%string.

Definition errorBody (message : string) : string :=
  ("{" ++ Tools.dq ++ "error" ++ Tools.dq ++ ":"
   ++ Tools.dq ++ message ++ Tools.dq ++ "}")%string.

(** The answer to a preflight request. *)
Definition preflight (origin : option string) : Response :=
  {| status := 204%N;
     headers :=
       set "Access-Control-Allow-Methods" "GET, POST, OPTIONS"
         (set "Access-Control-Allow-Headers" "Content-Type, Authorization"
            (set "Access-Control-Allow-Credentials" "true"
               (set "Access-Control-Allow-Origin"
                  (if allowed origin
                   then match origin with Some o => o | None => "" end
                   else "")
                  [])));
     body := None |}.

(** The [try] block of [fetch]. *)
Definition route (w : World) (request : Request) : Outcome Response :=
  if String.eqb (pathname request) "/check-open-ai-key" then
    Ret (withCORS
           (json 200%N (successBody (Tools.truthy (OPENAI_API_KEY w))))
           (origin request))
  else
    match routeAgentRequest w request with
    | Throw e => Throw e
    | Ret (Some response) => Ret (withCORS response (origin request))
    | Ret None =>
        Ret (withCORS (json 404%N (errorBody "Not found")) (origin request))
    end.

(** [fetch(request, env, ctx)] of the exported handler. *)
Definition fetch (w : World) (request : Request) : Response :=
  if String.eqb (method request) "OPTIONS" then preflight (origin request)
  else
    match route w request with
    | Ret response => response
    | Throw _ =>
        withCORS (json 500%N (errorBody "Internal Server Error"))
                 (origin request)
    end.

End Http.

(* ================================================================== *)
(** * Vocabulary of the statements, and example pages *)

Import Dom Browser Tools.

(** The text of an element does not match the entry-point pattern. *)
Definition nonMatching (el : Node) : Prop :=
  regex_test (textContent el) = false.

(** Elements of a landing page, for the examples. *)
Definition book : Node :=
  Element "A" [("href", "https://pebblecreek-golf.example/tee-times")] true
    [TextNode "Book Tee Times"].

Definition about : Node :=
  Element "A" [("href", "https://pebblecreek-golf.example/about")] true
    [TextNode "About us"].

Definition reserve : Node :=
  Element "BUTTON" [] true [TextNode "Reserve"].

Definition reserveLinked : Node :=
  Element "BUTTON" [] true
    [Element "SPAN" [] true
       [Element "A" [("href", "https://book.example/")] true
          [TextNode "Reserve"]]].

(** A world given by what rejects, what the URLs load and where clicks
    lead; the agent and its browser binding are there, and the pages
    have no listeners for the events of the date loop. *)
Definition worldWith (fault : nat -> Op -> option string)
           (site : string -> PageContent)
           (clicks : Node -> option string) : World :=
  {| w_agent := true;
     w_MYBROWSER := true;
     w_fault := fault;
     w_site := site;
     w_click := clicks;
     w_dispatch := fun page _ _ _ => page;
     w_timeoutError := fun _ => "TimeoutError: Waiting failed";
     w_noElementError := fun _ => "Error: failed to find element matching selector";
     w_schedule := fun _ _ _ => None;
     w_getSchedules := inr None;
     w_cancelSchedule := fun _ => None |}.

(** A world in which nothing rejects. *)
Definition worldOf (site : string -> PageContent)
           (clicks : Node -> option string) : World :=
  worldWith (fun _ _ => None) site clicks.

Definition pageOf (u : string) (body : list Node) : PageContent :=
  {| pc_url := u; pc_html := "";
     pc_document :=
       standards (Element "HTML" [] true [Element "BODY" [] true body]) |}.

Definition calm : World :=
  worldOf (fun u => pageOf u []) (fun _ => None).

(** A date-selector strategy resolves to an input element on a page:
    the first match of the selector is visible, so the bounded wait
    ends, and it carries the tag [input]. *)
Definition resolvesToInput (doc : Document) (sel : Selector) : bool :=
  present sel true doc &&
  match querySelector sel doc with
  | Some el => isInput el
  | None => false
  end.

(** The calls that one round of the date loop may issue for [sel]. *)
Definition attemptOf (sel : Selector) (e : Event) : Prop :=
  e = Call (OpWaitForSelector sel (Some 3000%N) true) \/ e = Call (OpEval sel).


(** From the tick [t] on no call rejects. *)
Definition noFaultFrom (w : World) (t : nat) : Prop :=
  forall (n : nat) (op : Op), t <= n -> w_fault w n op = None.

Definition document (s : State) : Document := pc_document (st_page s).


Definition onPage (pc : PageContent) : State :=
  {| st_tick := 0; st_log := []; st_page := pc;
     st_pending := None; st_responses := []; st_pageVar := None |}.

(** Two states show the same page to the program. *)
Definition samePage (s1 s2 : State) : Prop :=
  st_page s1 = st_page s2 /\ st_pending s1 = st_pending s2 /\
  st_pageVar s1 = st_pageVar s2 /\ st_responses s1 = st_responses s2.

(** A chat turn whose reconciliation step throws. *)
Definition hello : Chat.Message :=
  {| Chat.id := "m1"; Chat.role := Chat.user;
     Chat.content := "What is the weather in Paris?";
     Chat.createdAt := 1700000000000%N |}.

Definition failingChat : Chat.World :=
  {| Chat.processToolCalls := fun _ => Throw "Error: tool call without result";
     Chat.streamFault := fun _ => None;
     Chat.dateNow := 1700000000123%N;
     Chat.newDate := 1700000000123%N |}.

Definition chat0 : Chat.State :=
  {| Chat.messages := [hello]; Chat.dataStream := [] |}.

(** An event that neither opens a page on the browser binding nor
    closes a page. *)
Definition benign (e : Event) : bool :=
  match e with
  | PageOpened None _ => false
  | Call (OpPageClose _) => false
  | _ => true
  end.

(** An event other than a click. *)
Definition noClick (e : Event) : bool :=
  match e with Click _ => false | _ => true end.

(** [s'] comes after [s] in a run that leaves the variable [page] alone
    and logs benign events only. *)
Definition quietly (s s' : State) : Prop :=
  st_pageVar s' = st_pageVar s /\
  st_tick s <= st_tick s' /\
  exists evs, st_log s' = st_log s ++ evs /\ Forall (fun e => benign e = true) evs.

(** A computation keeps a relation between the state it starts in and
    the state it ends in, on every exit. *)
Definition keeps {A} (R : State -> State -> Prop) (m : M State A) : Prop :=
  forall s, R s (snd (m s)).

(** A computation returns, it does not throw. *)
Definition succeeds {A} (m : M State A) : Prop :=
  forall s, exists a, fst (m s) = Ret a.


(** The page of [s'] has the URL of the page of [s]. *)
Definition sameUrl (s s' : State) : Prop :=
  pc_url (st_page s') = pc_url (st_page s).

(** The calls by which the landing page is searched for an href. *)
Definition probe (e : Event) : bool :=
  match e with
  | Call (OpWaitForSelector _ _ _) | Call OpEvaluate => true
  | _ => false
  end.

(** No href is found in either element category of the page. *)
Definition noHref (doc : Document) : Prop :=
  forall sel, In sel linkSelectors -> truthy (entryPoint sel doc) = false.

(** The search for [courseName] succeeds and resolves to [courseUrl]:
    the agent and its browser binding are there, the result page loads
    with a body, and its first result link is [courseUrl]. *)
Definition resolvesTo (w : World) (courseName courseUrl : string) : Prop :=
  w_agent w = true /\
  w_MYBROWSER w = true /\
  present Server.sel_body false
    (pc_document (w_site w (googleSearchUrl courseName))) = true /\
  extractCourseUrl (pc_html (w_site w (googleSearchUrl courseName)))
    = Some courseUrl.

(** What remains of [findTeeTimes] once the landing page is loaded: the
    search of the page inside the two [try] blocks and the [finally]. *)
Definition landed (w : World) (date : option string) : M State string :=
  try_catch
    (try_finally
       (try_catch (follow w date)
          (fun error => ret ("Error finding tee times: " ++ error)%string))
       (release w))
    (fun error => ret ("Unexpected error: " ++ error)%string).

(** The search result page for "Pebble Creek" and a site behind it. *)
Definition courseSite : string := "https://www.pebblecreek-golf.example/".

Definition searchPage : PageContent :=
  {| pc_url := googleSearchUrl "Pebble Creek";
     pc_html :=
       ("<div><a href=" ++ dq ++ "/url?q=" ++ courseSite ++ "&sa=U" ++ dq
        ++ ">Pebble Creek Golf</a></div>")%string;
     pc_document :=
       standards (Element "HTML" [] true [Element "BODY" [] true []]) |}.

Definition siteWith (landing : list Node) (u : string) : PageContent :=
  if String.eqb u (googleSearchUrl "Pebble Creek") then searchPage
  else if String.eqb u courseSite then pageOf u landing
  else pageOf u [].

(** Scenario C: nothing on the landing page matches. *)
Definition worldC : World := worldOf (siteWith [about]) (fun _ => None).

(** Scenario B: only a button without a nested link matches. *)
Definition worldB : World :=
  worldOf (siteWith [about; reserve])
          (fun _ => Some "https://book.example/slots").

(** How often the page [p] was opened on the browser binding, and how
    often its [close] was called, in a stretch of the log. *)
Definition opened (p : nat) (evs : list Event) : nat :=
  length (filter (fun e => match e with
                           | PageOpened None q => Nat.eqb q p
                           | _ => false
                           end) evs).

Definition closed (p : nat) (evs : list Event) : nat :=
  length (filter (fun e => match e with
                           | Call (OpPageClose q) => Nat.eqb q p
                           | _ => false
                           end) evs).

(** Every page opened between [s] and [s'] was closed exactly once, and
    nothing else was closed. *)
Definition balanced (s s' : State) : Prop :=
  exists evs,
    st_log s' = st_log s ++ evs /\
    forall p, opened p evs = closed p evs /\ opened p evs <= 1.

(** The browser session [b] was launched; [close] was called on it. *)
Definition launched (b : nat) (log : list Event) : bool :=
  existsb (fun e => match e with Launched q => Nat.eqb q b | _ => false end) log.

Definition closeCalled (b : nat) (log : list Event) : bool :=
  existsb (fun e => match e with
                    | Call (OpBrowserClose q) => Nat.eqb q b
                    | _ => false
                    end) log.

(** A browser session was launched and [close] was never called on it. *)
Definition leaked (b : nat) (log : list Event) : Prop :=
  launched b log = true /\ closeCalled b log = false.

(** A world in which every navigation rejects. *)
Definition unreachable : World :=
  worldWith
    (fun _ op =>
       match op with
       | OpGoto _ => Some "Error: net::ERR_NAME_NOT_RESOLVED"
       | _ => None
       end)
    (fun u => pageOf u [])
    (fun _ => None).

(** A world in which closing a browser rejects. *)
Definition stuckClose : World :=
  worldWith
    (fun _ op =>
       match op with
       | OpBrowserClose _ =>
           Some "Error: Protocol error (Browser.close): Target closed"
       | _ => None
       end)
    (fun u =>
       {| pc_url := u;
          pc_html := "<html><body><a>About us</a></body></html>";
          pc_document :=
            standards (Element "HTML" [] true [Element "BODY" [] true [about]]) |})
    (fun _ => None).

(** A world in which the first of two sites cannot be reached. *)
Definition flaky : World :=
  worldWith
    (fun _ op =>
       match op with
       | OpGoto u =>
           if String.eqb u "https://a.example/"
           then Some "Error: net::ERR_CONNECTION_REFUSED"
           else None
       | _ => None
       end)
    (fun u => pageOf u [about])
    (fun _ => None).

(** Every character of a string satisfies [p]. *)
Fixpoint allChars (p : ascii -> bool) (s : string) : bool :=
  match s with
  | EmptyString => true
  | String c s' => p c && allChars p s'
  end.

Definition notLt (c : ascii) : bool := negb (Ascii.eqb c "<"%char).

(** A string at which the character class of the result-link pattern
    stops: its end, an ampersand or a double quote. *)
Definition stops (rest : string) : bool :=
  match rest with
  | EmptyString => true
  | String c _ => negb (notAmpQuote c)
  end.

(** What the capture group of the result-link pattern can hold: a
    scheme and at least one character, none an ampersand or a quote. *)
Definition resultUrl (u : string) : Prop :=
  exists scheme body : string,
    (scheme = "https://" \/ scheme = "http://") /\
    u = (scheme ++ body)%string /\
    body <> "" /\
    allChars notAmpQuote body = true.

(** A character that [encodeURIComponent] may put out: an unreserved
    one or the percent sign. *)
Definition urlSafe (c : ascii) : bool :=
  unreserved c || Ascii.eqb c "%"%char.

(** Counts over a stretch of the log: calls of [puppeteer.launch],
    sessions that came to exist, calls of [browser.close]. *)
Definition launchCalls (evs : list Event) : nat :=
  length (filter (fun e => match e with Call OpLaunch => true | _ => false end) evs).

Definition sessions (evs : list Event) : nat :=
  length (filter (fun e => match e with Launched _ => true | _ => false end) evs).

Definition closeCalls (evs : list Event) : nat :=
  length (filter (fun e => match e with
                           | Call (OpBrowserClose _) => true
                           | _ => false
                           end) evs).

(** What [browse] puts out for a URL whose page loads. *)
Definition pageAnswer (w : World) (returnHtml : bool) (url : string) : Response :=
  if returnHtml
  then RString (pc_html (w_site w url))
  else RLinks (map href (querySelectorAll Server.sel_a
                           (pc_document (w_site w url)))).

(** The calls that [browse] awaits for one URL before it closes the
    browser, in order, when the visit starts at the tick [t] (the
    session then has the handle [t]). *)
Definition visitOps (returnHtml : bool) (url : string) (t : nat) : list Op :=
  [ OpLaunch; OpNewPage (Some t); OpGoto url;
    OpWaitForSelector Server.sel_body None false;
    if returnHtml then OpContent else OpEvalAll Server.sel_a ].

(** The error, if any, with which call number [j] of a visit ends when
    the calls before it went through: the error with which the world
    rejects it, or the time-out of the wait for a body that the page
    does not have. *)
Definition stepError (w : World) (returnHtml : bool) (url : string)
           (t j : nat) : option string :=
  match nth_error (visitOps returnHtml url t) j with
  | None => None
  | Some op =>
      match w_fault w (j + t) op with
      | Some e => Some e
      | None =>
          if Nat.eqb j 3 &&
             negb (present Server.sel_body false (pc_document (w_site w url)))
          then Some (w_timeoutError w op)
          else None
      end
  end.

(** The visit started at [t] fails at its call number [k], with [e]. *)
Definition failsAt (w : World) (returnHtml : bool) (url : string)
           (t k : nat) (e : string) : Prop :=
  (forall j, j < k -> stepError w returnHtml url t j = None) /\
  stepError w returnHtml url t k = Some e.

(** Every call of the visit started at [t] goes through. *)
Definition goesThrough (w : World) (returnHtml : bool) (url : string)
           (t : nat) : Prop :=
  forall j, stepError w returnHtml url t j = None.

(** What [browse] answers for a list of URLs when it starts at the tick
    [t] and closing the browser does not reject: the answer of the page
    for a visit that goes through, which takes six calls, and for a
    visit that fails at call [k] the string describing the URL and the
    error of that call, after which the next visit starts. *)
Inductive Visits (w : World) (returnHtml : bool)
  : nat -> list string -> list Response -> Prop :=
| visits_done (t : nat) : Visits w returnHtml t [] []
| visits_page (t : nat) (url : string) (urls : list string)
              (rs : list Response) :
    goesThrough w returnHtml url t ->
    Visits w returnHtml (6 + t) urls rs ->
    Visits w returnHtml t (url :: urls) (pageAnswer w returnHtml url :: rs)
| visits_error (t k : nat) (e url : string) (urls : list string)
               (rs : list Response) :
    failsAt w returnHtml url t k e ->
    Visits w returnHtml (S k + t) urls rs ->
    Visits w returnHtml t (url :: urls)
      (RString ("Error browsing URL " ++ url ++ ": " ++ e)%string :: rs).

(** The log of a [browse] in which every step succeeds, started at the
    tick [t]: one block per URL, each opening and closing its own
    session. *)
Fixpoint transcript (returnHtml : bool) (t : nat) (urls : list string)
  : list Event :=
  match urls with
  | [] => []
  | url :: rest =>
      [ Call OpLaunch; Launched t;
        Call (OpNewPage (Some t)); PageOpened (Some t) (S t);
        Call (OpGoto url);
        Call (OpWaitForSelector Server.sel_body None false);
        Call (if returnHtml then OpContent else OpEvalAll Server.sel_a);
        Call (OpBrowserClose t) ]
      ++ transcript returnHtml (6 + t) rest
  end.

(** A world without an agent in the context. *)
Definition noAgent : World :=
  {| w_agent := false;
     w_MYBROWSER := true;
     w_fault := fun _ _ => None;
     w_site := fun u => pageOf u [];
     w_click := fun _ => None;
     w_dispatch := fun page _ _ _ => page;
     w_timeoutError := fun _ => "TimeoutError: Waiting failed";
     w_noElementError := fun _ => "Error: failed to find element matching selector";
     w_schedule := fun _ _ _ => None;
     w_getSchedules := inr None;
     w_cancelSchedule := fun _ => None |}.

(** [s'] comes after [s] in a run that clicks nothing. *)
Definition clickFree (s s' : State) : Prop :=
  exists evs,
    st_log s' = st_log s ++ evs /\ Forall (fun e => noClick e = true) evs.

Definition noUrlFound : string :=
  "No golf course website URL found in search results.".

(** Scenario A with a button ahead of the link in the document. *)
Definition worldA : World :=
  worldOf (siteWith [reserve; about; book]) (fun _ => None).

(** The first [streamText] of the chat turn, over the reconciled
    messages. *)
Definition firstStream (processedMessages : list Chat.Message)
  : Chat.StreamText :=
  {| Chat.st_system := "You are a helpful assistant that can do various tasks.";
     Chat.st_messages := processedMessages;
     Chat.st_tools := true;
     Chat.st_maxSteps := Some 10%N |}.

(** The error, if any, with which the [try] block of the chat turn
    ends: that of the reconciliation or that of the first stream. *)
Definition tryError (w : Chat.World) (s : Chat.State) : option string :=
  match Chat.processToolCalls w (Chat.messages s) with
  | Throw e => Some e
  | Ret processed => Chat.streamFault w (firstStream processed)
  end.

(** The request as it would be without its [Origin] header. *)
Definition withoutOrigin (request : Http.Request) : Http.Request :=
  {| Http.method := Http.method request;
     Http.pathname := Http.pathname request;
     Http.origin := None |}.

(** A router that always throws, and a request to it. *)
Definition brokenRouter : Http.World :=
  {| Http.routeAgentRequest := fun _ => Throw "Error: durable object unavailable";
     Http.OPENAI_API_KEY := Some "sk-test" |}.

Definition emptyRouter : Http.World :=
  {| Http.routeAgentRequest := fun _ => Ret None;
     Http.OPENAI_API_KEY := None |}.

Definition chatRequest (m : string) (o : option string) : Http.Request :=
  {| Http.method := m;
     Http.pathname := "/agents/dash/default";
     Http.origin := o |}.

(** An event that writes to the page. *)
Definition written (e : Event) : bool :=
  match e with
  | SetValue _ _ | Dispatch _ _ _ | Click _ => true
  | _ => false
  end.

(** The only call that rejects, with [e], is the navigation to [u]. *)
Definition onlyUnreachable (w : World) (u e : string) : Prop :=
  forall (n : nat) (op : Op),
    w_fault w n op =
      match op with
      | OpGoto x => if String.eqb x u then Some e else None
      | _ => None
      end.

(** The search works and the course site cannot be reached. *)
Definition siteDown : World :=
  worldWith
    (fun _ op =>
       match op with
       | OpGoto x =>
           if String.eqb x courseSite
           then Some "Error: net::ERR_CONNECTION_TIMED_OUT"
           else None
       | _ => None
       end)
    (siteWith [book])
    (fun _ => None).

(** A world in which the scheduler rejects every task. *)
Definition schedulerDown : World :=
  {| w_agent := true;
     w_MYBROWSER := true;
     w_fault := fun _ _ => None;
     w_site := fun u => pageOf u [];
     w_click := fun _ => None;
     w_dispatch := fun page _ _ _ => page;
     w_timeoutError := fun _ => "TimeoutError: Waiting failed";
     w_noElementError := fun _ => "Error: failed to find element matching selector";
     w_schedule := fun _ _ _ => Some "Error: storage unavailable";
     w_getSchedules := inr None;
     w_cancelSchedule := fun _ => None |}.

(** A hidden link, and a landing page on which nothing is visible. *)
Definition hiddenBook : Node :=
  Element "A" [("href", "https://pebblecreek-golf.example/tee-times")] false
    [TextNode "Book Tee Times"].

Definition worldHidden : World :=
  worldOf (siteWith [hiddenBook])
          (fun _ => Some "https://pebblecreek-golf.example/popup").

(** The page once the date [d] has been written to [el] and the
    listeners of the page have handled [input] and [change]. *)
Definition entered (w : World) (page : PageContent) (el : Node) (d : string)
  : PageContent :=
  w_dispatch w (w_dispatch w page el d "input") el d "change".

(** The page as the date block leaves it when none of its calls
    rejects: the date goes into the element of the first strategy that
    resolves to an input element, if there is one. *)
Definition dated (w : World) (date : option string) (page : PageContent)
  : PageContent :=
  match date with
  | Some d =>
      if String.eqb d "" then page
      else
        match find (resolvesToInput (pc_document page)) dateSelectors with
        | Some sel =>
            match querySelector sel (pc_document page) with
            | Some el => entered w page el d
            | None => page
            end
        | None => page
        end
  | None => page
  end.

(** The listeners of the pages do not navigate: the URL of a page is the
    same after an event has been handled. *)
Definition inert (w : World) : Prop :=
  forall (page : PageContent) (el : Node) (value type : string),
    pc_url (w_dispatch w page el value type) = pc_url page.


(** A call of the date loop: its bounded wait or its [$eval]. *)
Definition primingOp (op : Op) : bool :=
  match op with
  | OpWaitForSelector _ (Some timeout) true => N.eqb timeout 3000
  | OpEval _ => true
  | _ => false
  end.


(** From the tick [t] on no call rejects but, possibly, calls of the
    date loop. *)
Definition calmFrom (w : World) (t : nat) : Prop :=
  forall (n : nat) (op : Op),
    t <= n -> primingOp op = false -> w_fault w n op = None.


(** The bounded wait with which the date loop starts a strategy. *)
Definition waitFor (sel : Selector) : Event :=
  Call (OpWaitForSelector sel (Some 3000%N) true).

(** Scenario D: behind the link of the landing page, a tee-times page
    with a date input. *)
Definition teeTimesUrl : string :=
  "https://pebblecreek-golf.example/tee-times".

Definition dateInput : Node :=
  Element "INPUT" [("type", "date"); ("id", "res-date")] true [].

Definition siteD (u : string) : PageContent :=
  if String.eqb u teeTimesUrl then pageOf u [dateInput]
  else siteWith [book] u.


(** Scenario D when the listener of [change] loads the times of the day
    that was entered. *)
Definition worldRedirect : World :=
  {| w_agent := true;
     w_MYBROWSER := true;
     w_fault := fun _ _ => None;
     w_site := siteD;
     w_click := fun _ => None;
     w_dispatch :=
       fun page _ value type =>
         if String.eqb type "change"
         then siteD (pc_url page ++ "?date=" ++ value)%string
         else page;
     w_timeoutError := fun _ => "TimeoutError: Waiting failed";
     w_noElementError := fun _ => "Error: failed to find element matching selector";
     w_schedule := fun _ _ _ => None;
     w_getSchedules := inr None;
     w_cancelSchedule := fun _ => None |}.


(* ================================================================== *)
(** * Properties *)

(** ** The matcher of regular expressions

    [Regex.test] holds exactly when some substring belongs to the
    language of the pattern. *)

Section Matcher.

Import Regex.
Local Open Scope string_scope.

Variable i : bool.

Lemma append_empty (s1 s2 : string) : s1 ++ s2 = "" -> s1 = "" /\ s2 = "".
Proof. destruct s1; simpl; [auto | discriminate]. Qed.

Lemma lang_cat_inv (a b : regex) (s : string) :
  lang i (Cat a b) s ->
  exists s1 s2, s = s1 ++ s2 /\ lang i a s1 /\ lang i b s2.
Proof. intros H. inversion H; subst. eauto. Qed.

Lemma lang_alt_inv (a b : regex) (s : string) :
  lang i (Alt a b) s -> lang i a s \/ lang i b s.
Proof. intros H. inversion H; subst; auto. Qed.

Lemma nullable_lang (r : regex) : nullable r = true <-> lang i r "".
Proof.
  induction r as [| |a|a IHa b IHb|a IHa b IHb]; simpl.
  - split; [discriminate | intros H; inversion H].
  - split; [constructor | reflexivity].
  - split; [discriminate | intros H; inversion H].
  - rewrite andb_true_iff, IHa, IHb. split.
    + intros [Ha Hb]. change "" with ("" ++ ""). now constructor.
    + intros H. apply lang_cat_inv in H as (s1 & s2 & E & H1 & H2).
      symmetry in E. apply append_empty in E as [-> ->]. auto.
  - rewrite orb_true_iff, IHa, IHb. split.
    + intros [H|H]; [now apply lang_alt_l | now apply lang_alt_r].
    + apply lang_alt_inv.
Qed.

Lemma deriv_lang (r : regex) :
  forall (c : ascii) (s : string),
    lang i (deriv i c r) s <-> lang i r (String c s).
Proof.
  induction r as [| |a|a IHa b IHb|a IHa b IHb]; intros c s; simpl.
  - split; intros H; inversion H.
  - split; intros H; inversion H.
  - destruct (chr_eq i a c) eqn:E; split; intros H; inversion H; subst.
    + now constructor.
    + constructor.
    + congruence.
  - assert (Hcat : lang i (Cat (deriv i c a) b) s ->
                   lang i (Cat a b) (String c s)).
    { intros H. apply lang_cat_inv in H as (s1 & s2 & -> & H1 & H2).
      change (String c (s1 ++ s2)) with (String c s1 ++ s2).
      constructor; [now apply IHa | assumption]. }
    assert (Hback : lang i (Cat a b) (String c s) ->
                    lang i (Cat (deriv i c a) b) s \/
                    (lang i a "" /\ lang i (deriv i c b) s)).
    { intros H. apply lang_cat_inv in H as (s1 & s2 & E & H1 & H2).
      destruct s1 as [|c1 s1]; simpl in E.
      - right. split; [assumption|]. apply IHb. now rewrite E.
      - injection E as -> ->. left. constructor; [now apply IHa | assumption]. }
    destruct (nullable a) eqn:Hn.
    + split.
      * intros H. apply lang_alt_inv in H as [H|H]; [now apply Hcat|].
        change (String c s) with ("" ++ String c s).
        constructor; [now apply nullable_lang | now apply IHb].
      * intros H. destruct (Hback H) as [H1|[_ H1]];
          [now apply lang_alt_l | now apply lang_alt_r].
    + split; [exact Hcat|].
      intros H. destruct (Hback H) as [H1|[H1 _]]; [assumption|].
      apply nullable_lang in H1. congruence.
  - split; intros H; apply lang_alt_inv in H as [H|H];
      first [ apply lang_alt_l; now apply IHa | apply lang_alt_r; now apply IHb ].
Qed.

Lemma match_prefix_lang (s : string) :
  forall r : regex,
    match_prefix i s r = true <->
    exists s1 s2, s = s1 ++ s2 /\ lang i r s1.
Proof.
  induction s as [|c s IH]; intros r; simpl.
  - rewrite orb_false_r. split.
    + intros H. exists "", "". split; [reflexivity | now apply nullable_lang].
    + intros (s1 & s2 & E & H). symmetry in E.
      apply append_empty in E as [-> _]. now apply nullable_lang.
  - rewrite orb_true_iff. split.
    + intros [H|H].
      * exists "", (String c s). split; [reflexivity | now apply nullable_lang].
      * apply IH in H as (s1 & s2 & -> & H).
        exists (String c s1), s2. split; [reflexivity | now apply deriv_lang].
    + intros (s1 & s2 & E & H). destruct s1 as [|c1 s1]; simpl in E.
      * left. now apply nullable_lang.
      * injection E as <- ->. right. apply IH. exists s1, s2.
        split; [reflexivity | now apply deriv_lang].
Qed.

Lemma test_lang (r : regex) (s : string) :
  test i r s = true <->
  exists s0 s1 s2, s = s0 ++ s1 ++ s2 /\ lang i r s1.
Proof.
  induction s as [|c s IH].
  - simpl. rewrite !orb_false_r. split.
    + intros H. exists "", "", "". split; [reflexivity | now apply nullable_lang].
    + intros (s0 & s1 & s2 & E & H). symmetry in E.
      apply append_empty in E as [-> E]. apply append_empty in E as [-> _].
      now apply nullable_lang.
  - cbn [test]. rewrite orb_true_iff. split.
    + intros [H|H].
      * apply match_prefix_lang in H as (s1 & s2 & E & H).
        now exists "", s1, s2.
      * apply IH in H as (s0 & s1 & s2 & -> & H).
        now exists (String c s0), s1, s2.
    + intros (s0 & s1 & s2 & E & H). destruct s0 as [|c0 s0]; simpl in E.
      * left. apply match_prefix_lang. now exists s1, s2.
      * injection E as <- ->. right. apply IH. now exists s0, s1, s2.
Qed.

End Matcher.

(** [regex.test(text)] for the entry-point pattern. *)
Lemma regex_test_spec (text : string) :
  regex_test text = true <->
  exists s0 m s2,
    text = (s0 ++ m ++ s2)%string /\ Regex.lang true teeTimesRegex m.
Proof. apply test_lang. Qed.

(** ** The entry-point matcher *)

Lemma scanElements_skip (pre rest : list Node) :
  Forall nonMatching pre ->
  scanElements (pre ++ rest) = scanElements rest.
Proof.
  induction 1 as [|el pre Hel _ IH]; simpl; [reflexivity|].
  unfold nonMatching in Hel. now rewrite Hel.
Qed.

Lemma scanElements_none (els : list Node) :
  Forall nonMatching els -> scanElements els = None.
Proof.
  intros H. rewrite <- (app_nil_r els).
  now rewrite scanElements_skip.
Qed.

(** Whatever the matcher returns was read off an element of the list. *)
Lemma scanElements_sound (els : list Node) (h : string) :
  scanElements els = Some h ->
  exists el, In el els /\ regex_test (textContent el) = true /\
    ((isTag "a" el = true /\ h = href el) \/
     (isTag "button" el = true /\
      exists l, querySelectorIn sel_a el = Some l /\ h = href l)).
Proof.
  induction els as [|el els IH]; simpl; [discriminate|].
  destruct (regex_test (textContent el)) eqn:Ht.
  - destruct (isTag "a" el) eqn:Ha.
    + intros [= <-]. exists el. auto.
    + destruct (isTag "button" el) eqn:Hb.
      * destruct (querySelectorIn sel_a el) as [l|] eqn:Hq; [|discriminate].
        intros [= <-]. exists el.
        split; [now left|]. split; [assumption|].
        right. split; [assumption|]. now exists l.
      * intros H. destruct (IH H) as (x & Hin & Hx). exists x. auto.
  - intros H. destruct (IH H) as (x & Hin & Hx). exists x. auto.
Qed.

Example regex_examples :
  map regex_test ["Book Tee Times"; "RESERVE a slot"; "booking tee times";
                  "About us"; "tee  times"; ""]
  = [true; true; true; false; false; false].
Proof. reflexivity. Qed.

(** C2. The matcher scans the elements in order and the first element
    whose text matches the pattern decides: a list without a matching
    element yields [None]; when the first matching element is a link the
    result is that link's [href]; and a result is always the [href] of a
    matching link of the list or of the link nested in a matching
    button, never another string. *)
Theorem C2_first_match_wins (pre : list Node) :
  Forall nonMatching pre ->
  scanElements pre = None /\
  (forall (el : Node) (post : list Node),
      regex_test (textContent el) = true ->
      isTag "a" el = true ->
      scanElements (pre ++ el :: post) = Some (href el)) /\
  (forall (els : list Node) (h : string),
      scanElements els = Some h ->
      exists el, In el els /\ regex_test (textContent el) = true /\
        ((isTag "a" el = true /\ h = href el) \/
         (isTag "button" el = true /\
          exists l, querySelectorIn sel_a el = Some l /\ h = href l))).
Proof.
  intros Hpre. split; [now apply scanElements_none|]. split.
  - intros el post Ht Ha. rewrite scanElements_skip by assumption.
    simpl. now rewrite Ht, Ha.
  - apply scanElements_sound.
Qed.

Lemma C2_witness :
  scanElements [about] = None /\
  scanElements ([about] ++ book :: [reserve])
  = Some "https://pebblecreek-golf.example/tee-times".
Proof.
  assert (H : Forall nonMatching [about])
    by (repeat constructor).
  split.
  - exact (proj1 (C2_first_match_wins [about] H)).
  - exact (proj1 (proj2 (C2_first_match_wins [about] H))
             book [reserve] eq_refl eq_refl).
Defined.

Lemma button_not_link (b : Node) : isTag "button" b = true -> isTag "a" b = false.
Proof.
  unfold isTag. intros H. apply String.eqb_eq in H. now rewrite H.
Qed.

(** C3, as the code has it.  When the first matching element is a
    button, the matcher returns the [href] of the first link nested in
    it, and [None] when there is none: the value it also returns when
    nothing matches.  It never throws, being a total function. *)
Theorem C3_button_nested_link (pre post : list Node) (b : Node) :
  Forall nonMatching pre ->
  regex_test (textContent b) = true ->
  isTag "button" b = true ->
  scanElements (pre ++ b :: post) =
    match querySelectorIn sel_a b with
    | Some linkInside => Some (href linkInside)
    | None => scanElements []
    end.
Proof.
  intros Hpre Ht Hb. rewrite scanElements_skip by assumption.
  simpl. now rewrite Ht, (button_not_link b Hb), Hb.
Qed.

Lemma C3_witness :
  scanElements ([about] ++ reserveLinked :: [book])
    = Some "https://book.example/" /\
  scanElements ([about] ++ reserve :: [book]) = None.
Proof.
  assert (H : Forall nonMatching [about]) by (repeat constructor).
  split.
  - exact (C3_button_nested_link [about] [book] reserveLinked
             H eq_refl eq_refl).
  - exact (C3_button_nested_link [about] [book] reserve
             H eq_refl eq_refl).
Defined.

(** C3 as stated fails: for a matching button without a nested link the
    matcher's value is not distinct from its value on a list without any
    match. *)
Lemma C3_counterexample :
  ~ (forall (pre post : list Node) (b : Node),
        Forall nonMatching pre ->
        regex_test (textContent b) = true ->
        isTag "button" b = true ->
        querySelectorIn sel_a b = None ->
        scanElements (pre ++ b :: post) <> scanElements pre).
Proof.
  intros H.
  apply (H [] [] reserve); [constructor | reflexivity ..].
Qed.

(** ** The registry *)

(** C10. [getLocalTime] returns the constant ["10am"] for every
    location and leaves the state alone, so any two runs agree. *)
Theorem C10_getLocalTime_constant (l1 l2 : string) (s : State) :
  getLocalTime l1 s = (Ret "10am", s) /\
  getLocalTime l1 s = getLocalTime l2 s.
Proof. split; reflexivity. Qed.

(** C9. In the registry [getWeatherInformation] is the one tool
    defined without [execute], the [executions] table has an entry under
    that name, and so every tool that needs confirmation has its entry. *)
Theorem C9_confirm_required_has_execution (w : World) :
  map fst (filter (fun nt => confirmRequired (snd nt)) (tools w))
    = ["getWeatherInformation"] /\
  map fst executions = ["getWeatherInformation"] /\
  (forall (name : string) (t : Tool),
      In (name, t) (tools w) ->
      confirmRequired t = true ->
      name = "getWeatherInformation" /\ hasKey name executions = true).
Proof.
  split; [reflexivity|]. split; [reflexivity|].
  intros name t Hin Hc. unfold tools in Hin. simpl in Hin.
  repeat (destruct Hin as [Hin|Hin];
          [ injection Hin as <- <-; first [ now split | discriminate Hc ] | ]).
  contradiction.
Qed.

Lemma C9_witness :
  hasKey "getWeatherInformation" executions = true.
Proof.
  refine (proj2 (proj2 (proj2 (C9_confirm_required_has_execution calm))
                   "getWeatherInformation"
                   {| description := "show the weather in a given city to the user";
                      parameters := string; execute := None |} _ _)).
  - left. reflexivity.
  - reflexivity.
Defined.

(** ** The chat turn *)

(** C8. When the reconciliation step [processToolCalls] throws, the
    handler catches the exception, appends exactly one message to
    [this.messages] (an assistant message whose text carries the error)
    and goes on in the same turn: it streams a reply over the extended
    transcript.  The caught exception is not propagated; the turn only
    fails if that second [streamText] throws itself. *)
Theorem C8_reconciliation_error_recovered
        (w : Chat.World) (s : Chat.State) (e : string) :
  Chat.processToolCalls w (Chat.messages s) = Throw e ->
  let m := Chat.errorMessage w e in
  let recovery :=
    {| Chat.st_system := "You are a helpful assistant.";
       Chat.st_messages := Chat.messages s ++ [m];
       Chat.st_tools := false;
       Chat.st_maxSteps := None |} in
  Chat.role m = Chat.assistant /\
  Chat.content m =
    ("I encountered an error while trying to perform a task: " ++ e ++
     ". Let's continue our conversation. How can I assist you further?")%string /\
  Chat.messages (snd (Chat.onChatMessage w s)) = Chat.messages s ++ [m] /\
  match Chat.streamFault w recovery with
  | None =>
      Chat.onChatMessage w s =
        (Ret tt, {| Chat.messages := Chat.messages s ++ [m];
                    Chat.dataStream := Chat.dataStream s ++ [recovery] |})
  | Some e' => fst (Chat.onChatMessage w s) = Throw e'
  end.
Proof.
  intros He m recovery.
  split; [reflexivity|]. split; [reflexivity|].
  unfold Chat.onChatMessage, try_catch, bind, get. simpl. rewrite He.
  unfold Chat.push, Chat.streamText, modify, bind, throw. simpl.
  fold m. fold recovery.
  destruct (Chat.streamFault w recovery); simpl; auto.
Qed.

Lemma C8_witness :
  Chat.onChatMessage failingChat chat0 =
    (Ret tt,
     {| Chat.messages :=
          [hello; Chat.errorMessage failingChat "Error: tool call without result"];
        Chat.dataStream :=
          [ {| Chat.st_system := "You are a helpful assistant.";
               Chat.st_messages :=
                 [hello; Chat.errorMessage failingChat
                           "Error: tool call without result"];
               Chat.st_tools := false;
               Chat.st_maxSteps := None |} ] |}).
Proof.
  exact (proj2 (proj2 (proj2
           (C8_reconciliation_error_recovered failingChat chat0
              "Error: tool call without result" eq_refl)))).
Defined.

(** ** Date priming *)

Ltac run :=
  unfold try_catch, try_finally, bind, ret, throw, get, modify; simpl.

Ltac split_match :=
  match goal with
  | |- context [match ?x with _ => _ end] => destruct x eqn:?; simpl
  end.

Ltac attempts :=
  repeat split; simpl;
  try (now rewrite <- ?app_assoc); try lia;
  repeat (apply Forall_cons || apply Forall_nil); unfold attemptOf; auto.

(** A strategy that does not resolve to an input element is given up,
    whatever rejects on the way: nothing is set and the page stays. *)
Lemma trySelector_skip (w : World) (sel : Selector) (d : string) (s : State) :
  resolvesToInput (document s) sel = false ->
  exists (evs : list Event) (s' : State),
    trySelector w sel d s = (Ret false, s') /\
    st_log s' = st_log s ++ evs /\
    Forall (attemptOf sel) evs /\
    st_page s' = st_page s /\
    st_tick s <= st_tick s'.
Proof.
  unfold resolvesToInput, document. intros H.
  unfold trySelector, waitForSelector, eval_, call, emit. run.
  destruct (w_fault w (st_tick s) _); simpl.
  { eexists [_], _. attempts. }
  destruct (present sel true (pc_document (st_page s))) eqn:Hp; simpl.
  2:{ eexists [_], _. attempts. }
  simpl in H.
  destruct (w_fault w (S (st_tick s)) _); simpl.
  { eexists [_; _], _. attempts. }
  destruct (querySelector sel (pc_document (st_page s))) as [el|]; simpl.
  2:{ eexists [_; _], _. attempts. }
  rewrite H. simpl.
  eexists [_; _], _. attempts.
Qed.


Lemma noFaultFrom_le (w : World) (t t' : nat) :
  noFaultFrom w t -> t <= t' -> noFaultFrom w t'.
Proof. intros H Hle n op Hn. apply H. lia. Qed.

Lemma noFaultFrom_calm (w : World) (t : nat) : noFaultFrom w t -> calmFrom w t.
Proof. intros H n op Hn _. now apply H. Qed.


Lemma calmFrom_le (w : World) (t t' : nat) :
  calmFrom w t -> t <= t' -> calmFrom w t'.
Proof. intros H Hle n op Hn. apply H. lia. Qed.



(** ** Relations kept along a run *)

Section Keeping.

Variable R : State -> State -> Prop.
Hypothesis R_refl : forall s, R s s.
Hypothesis R_trans : forall s1 s2 s3, R s1 s2 -> R s2 s3 -> R s1 s3.

Lemma keeps_ret {A} (a : A) : keeps R (ret a).
Proof. intros s. apply R_refl. Qed.

Lemma keeps_throw {A} (e : string) : keeps R (@throw State A e).
Proof. intros s. apply R_refl. Qed.

Lemma keeps_get : keeps R get.
Proof. intros s. apply R_refl. Qed.

Lemma keeps_bind {A B} (m : M State A) (k : A -> M State B) :
  keeps R m -> (forall a, keeps R (k a)) -> keeps R (bind m k).
Proof.
  intros Hm Hk s. unfold bind. specialize (Hm s).
  destruct (m s) as [[a|e] s1]; simpl in *; [|assumption].
  eapply R_trans; [exact Hm | apply Hk].
Qed.

Lemma keeps_try_catch {A} (body : M State A) (handler : string -> M State A) :
  keeps R body -> (forall e, keeps R (handler e)) ->
  keeps R (try_catch body handler).
Proof.
  intros Hb Hh s. unfold try_catch. specialize (Hb s).
  destruct (body s) as [[a|e] s1]; simpl in *; [assumption|].
  eapply R_trans; [exact Hb | apply Hh].
Qed.

Lemma keeps_if {A} (b : bool) (m1 m2 : M State A) :
  keeps R m1 -> keeps R m2 -> keeps R (if b then m1 else m2).
Proof. now destruct b. Qed.

End Keeping.

Lemma quietly_refl (s : State) : quietly s s.
Proof.
  split; [reflexivity|]. split; [lia|]. exists []. now rewrite app_nil_r.
Qed.

Lemma quietly_trans (s1 s2 s3 : State) :
  quietly s1 s2 -> quietly s2 s3 -> quietly s1 s3.
Proof.
  intros (Hv1 & Ht1 & e1 & Hl1 & Hb1) (Hv2 & Ht2 & e2 & Hl2 & Hb2).
  split; [congruence|]. split; [lia|].
  exists (e1 ++ e2). split.
  - now rewrite Hl2, Hl1, app_assoc.
  - now apply Forall_app.
Qed.

Lemma sameUrl_refl (s : State) : sameUrl s s.
Proof. reflexivity. Qed.

Lemma sameUrl_trans (s1 s2 s3 : State) :
  sameUrl s1 s2 -> sameUrl s2 s3 -> sameUrl s1 s3.
Proof. unfold sameUrl. congruence. Qed.

Section Footprints.

Variable w : World.

(** *** What the calls of the library leave untouched *)

Lemma call_quiet (op : Op) :
  benign (Call op) = true -> keeps quietly (call w op).
Proof.
  intros Hb s. unfold call.
  destruct (w_fault w (st_tick s) op); simpl;
    (split; [reflexivity|]; split; [apply Nat.le_succ_diag_r|];
     exists [Call op]; split; [reflexivity|]; now constructor).
Qed.

Lemma emit_quiet (e : Event) : benign e = true -> keeps quietly (emit e).
Proof.
  intros Hb s. split; [reflexivity|]. split; [apply le_n|].
  exists [e]. split; [reflexivity | now constructor].
Qed.

Lemma setPage_quiet (pc : PageContent) (p : option string) :
  keeps quietly (setPage pc p).
Proof.
  intros s. split; [reflexivity|]. split; [apply le_n|].
  exists []. simpl. now rewrite app_nil_r.
Qed.

Lemma setResponses_quiet (f : list Response -> list Response) :
  keeps quietly (setResponses f).
Proof.
  intros s. split; [reflexivity|]. split; [apply le_n|].
  exists []. simpl. now rewrite app_nil_r.
Qed.

Lemma call_url (op : Op) : keeps sameUrl (call w op).
Proof.
  intros s. unfold call, sameUrl.
  now destruct (w_fault w (st_tick s) op).
Qed.

Lemma emit_url (e : Event) : keeps sameUrl (emit e).
Proof. intros s. reflexivity. Qed.

Lemma dispatchEvent_url el v t b :
  inert w -> keeps sameUrl (dispatchEvent w el v t b).
Proof. intros Hi s. unfold dispatchEvent, sameUrl. simpl. apply Hi. Qed.

End Footprints.

(** Decompose a computation along its binds, handlers and branches, down
    to the calls of the library. *)
Ltac preorder :=
  first [ exact quietly_refl | exact quietly_trans
        | exact sameUrl_refl | exact sameUrl_trans ].

Ltac footprint :=
  repeat
    (intros;
     first
       [ apply keeps_ret; preorder
       | apply keeps_throw; preorder
       | apply keeps_get; preorder
       | apply call_quiet; reflexivity
       | apply emit_quiet; reflexivity
       | apply setPage_quiet
       | apply setResponses_quiet
       | apply call_url
       | apply emit_url
       | apply dispatchEvent_url; assumption
       | assumption
       | match goal with IH : forall _, keeps _ _ |- _ => apply IH end
       | apply keeps_bind; [preorder | | ]
       | apply keeps_try_catch; [preorder | | ]
       | match goal with
         | |- keeps _ (if ?b then _ else _) => destruct b
         | |- keeps _ (match ?x with _ => _ end) => destruct x
         end ]).

Section Quiet.

Variable w : World.

Lemma waitForSelector_quiet sel t v : keeps quietly (waitForSelector w sel t v).
Proof. unfold waitForSelector. footprint. Qed.

Lemma evaluate_quiet {A} (f : Document -> M State A) :
  (forall doc, keeps quietly (f doc)) -> keeps quietly (evaluate w f).
Proof. intros Hf. unfold evaluate. footprint. Qed.

Lemma eval_quiet {A} sel (f : Node -> M State A) :
  (forall el, keeps quietly (f el)) -> keeps quietly (eval_ w sel f).
Proof. intros Hf. unfold eval_. footprint. Qed.

Lemma goto_quiet u : keeps quietly (goto w u).
Proof. unfold goto. footprint. Qed.

Lemma waitForNavigation_quiet t : keeps quietly (waitForNavigation w t).
Proof. unfold waitForNavigation. footprint. Qed.

Lemma click_quiet el : keeps quietly (click w el).
Proof. unfold click. footprint. Qed.

Lemma clickFirst_quiet els : keeps quietly (clickFirst w els).
Proof. induction els as [|el els IH]; simpl; footprint. Qed.

Lemma locate_quiet sels v : keeps quietly (locate w sels v).
Proof.
  revert v. induction sels as [|sel sels IH]; intros v; simpl; footprint.
Qed.

Lemma dispatchEvent_quiet el v t b : keeps quietly (dispatchEvent w el v t b).
Proof. unfold dispatchEvent. footprint. Qed.

Lemma trySelector_quiet sel d : keeps quietly (trySelector w sel d).
Proof. unfold trySelector, dispatchEvent. footprint. Qed.

Lemma setDate_quiet sels d : keeps quietly (setDate w sels d).
Proof. induction sels as [|sel sels IH]; simpl; footprint. Qed.

Lemma primeDate_quiet date : keeps quietly (primeDate w date).
Proof. unfold primeDate. footprint. Qed.

Lemma report_quiet date : keeps quietly (report w date).
Proof. unfold report. footprint. apply primeDate_quiet. Qed.

Lemma follow_quiet date : keeps quietly (follow w date).
Proof.
  unfold follow. footprint; intros;
    first [ apply clickFirst_quiet | apply primeDate_quiet ].
Qed.

End Quiet.

(** ** Date priming never fails the discovery *)

Lemma succeeds_ret {A} (a : A) : succeeds (@ret State A a).
Proof. intros s. now exists a. Qed.

Lemma succeeds_bind {A B} (m : M State A) (k : A -> M State B) :
  succeeds m -> (forall a, succeeds (k a)) -> succeeds (bind m k).
Proof.
  intros Hm Hk s. unfold bind. destruct (Hm s) as [a Ha].
  destruct (m s) as [r s1]. simpl in Ha. subst r. apply Hk.
Qed.

Lemma succeeds_try_catch {A} (body : M State A) (handler : string -> M State A) :
  (forall e, succeeds (handler e)) -> succeeds (try_catch body handler).
Proof.
  intros Hh s. unfold try_catch.
  destruct (body s) as [[a|e] s1]; [now exists a | apply Hh].
Qed.

Section Priming.

Variable w : World.





(** A strategy that resolves to an input element, when its three calls
    do not reject. *)
Lemma trySelector_hit_at (sel : Selector) (d : string) (s : State) :
  resolvesToInput (document s) sel = true ->
  noFaultFrom w (st_tick s) ->
  exists (el : Node) (s' : State),
    querySelector sel (document s) = Some el /\
    trySelector w sel d s = (Ret true, s') /\
    st_page s' = entered w (st_page s) el d.
Proof.
  unfold resolvesToInput, document. intros H Hnf.
  apply andb_prop in H. destruct H as [Hp Hq].
  destruct (querySelector sel (pc_document (st_page s))) as [el|] eqn:Hel;
    [|discriminate].
  exists el.
  unfold trySelector, waitForSelector, eval_, dispatchEvent, call, emit,
    setPage. run.
  rewrite (Hnf (st_tick s)) by lia. simpl. rewrite Hp. simpl.
  rewrite (Hnf (S (st_tick s))) by lia. simpl. rewrite Hel. simpl.
  rewrite Hq. simpl.
  rewrite (Hnf (S (S (st_tick s)))) by lia. simpl. rewrite Hel. simpl.
  eexists. repeat split.
Qed.

(** When nothing rejects, the date goes into the element of the first
    strategy that resolves to an input element. *)
Lemma setDate_first (sels : list Selector) (d : string) :
  forall s : State,
    noFaultFrom w (st_tick s) ->
    exists (dateSet : bool) (s' : State),
      setDate w sels d s = (Ret dateSet, s') /\
      st_page s' =
        match find (resolvesToInput (document s)) sels with
        | Some sel =>
            match querySelector sel (document s) with
            | Some el => entered w (st_page s) el d
            | None => st_page s
            end
        | None => st_page s
        end.
Proof.
  induction sels as [|sel sels IH]; intros s Hnf; simpl.
  - now exists false, s.
  - destruct (resolvesToInput (document s) sel) eqn:Hsel.
    + destruct (trySelector_hit_at sel d s Hsel Hnf)
        as (el & s' & Hq & Hrun & Hpage).
      exists true, s'. unfold bind. now rewrite Hrun, Hq.
    + destruct (trySelector_skip w sel d s Hsel)
        as (evs & s0 & Hrun & _ & _ & Hpage & Htick).
      destruct (IH s0) as (b & s' & Hrun' & Hpage').
      { eapply noFaultFrom_le; [exact Hnf | exact Htick]. }
      exists b, s'. unfold bind. rewrite Hrun. simpl.
      split; [exact Hrun'|].
      rewrite Hpage'. unfold document. now rewrite Hpage.
Qed.

(** When nothing rejects, the report is the URL of the page once the
    date has been entered. *)
Lemma report_dated (date : option string) (s : State) :
  noFaultFrom w (st_tick s) ->
  exists s', report w date s = (Ret (pc_url (dated w date (st_page s))), s').
Proof.
  intros Hnf. unfold report, primeDate, dated, truthy.
  destruct date as [d|].
  2:{ unfold bind, ret, url, get. now eexists. }
  destruct (String.eqb d ""); cbn [negb].
  { unfold bind, ret, url, get. now eexists. }
  destruct (setDate_first dateSelectors d s Hnf) as (b & s1 & Hrun & Hpage).
  unfold bind at 1 2. rewrite Hrun.
  unfold document in Hpage. rewrite <- Hpage.
  destruct b; unfold sleep, emit, url, bind, get, ret, modify; cbn;
    now eexists.
Qed.




End Priming.

(** ** The click fallback *)

Section Fallback.

Variable w : World.

(** When no category yields an href the scan of the categories ends
    with a falsy value, after probing calls only. *)
Lemma locate_falsy (sels : list Selector) :
  forall (v : option string) (s : State),
    calmFrom w (st_tick s) ->
    truthy v = false ->
    (forall sel, In sel sels -> truthy (entryPoint sel (document s)) = false) ->
    exists (v' : option string) (evs : list Event) (s' : State),
      locate w sels v s = (Ret v', s') /\
      truthy v' = false /\
      st_log s' = st_log s ++ evs /\
      Forall (fun e => probe e = true) evs /\
      samePage s s' /\
      st_tick s <= st_tick s'.
Proof.
  induction sels as [|sel sels IH]; intros v s Hnf Hv Hno.
  - exists v, [], s. simpl. rewrite app_nil_r.
    repeat split; auto.
  - simpl. unfold waitForSelector, evaluate, call. run.
    rewrite (Hnf (st_tick s)) by first [lia | reflexivity]. simpl.
    destruct (present sel true (pc_document (st_page s))) eqn:Hp; simpl.
    + rewrite (Hnf (S (st_tick s))) by first [lia | reflexivity]. simpl.
      pose proof (Hno sel (or_introl eq_refl)) as Hsel.
      unfold document in Hsel. rewrite Hsel.
      match goal with
      | |- context [locate w sels ?v1 ?s1] =>
          destruct (IH v1 s1) as (v' & evs & s' & Hrun & Hv' & Hlog & Hev & Hsame & Htick)
      end.
      * simpl. eapply calmFrom_le; [exact Hnf | lia].
      * exact Hsel.
      * intros x Hx. apply Hno. now right.
      * rewrite Hrun.
        exists v', (Call (OpWaitForSelector sel (Some 5000%N) true)
                    :: Call OpEvaluate :: evs), s'.
        destruct Hsame as (? & ? & ? & ?). simpl in *.
        repeat split; auto; try lia.
        rewrite Hlog. now rewrite <- !app_assoc.
    + match goal with
      | |- context [locate w sels ?v1 ?s1] =>
          destruct (IH v1 s1) as (v' & evs & s' & Hrun & Hv' & Hlog & Hev & Hsame & Htick)
      end.
      * simpl. eapply calmFrom_le; [exact Hnf | lia].
      * exact Hv.
      * intros x Hx. apply Hno. now right.
      * rewrite Hrun.
        exists v', (Call (OpWaitForSelector sel (Some 5000%N) true) :: evs), s'.
        destruct Hsame as (? & ? & ? & ?). simpl in *.
        repeat split; auto; try lia.
        rewrite Hlog. now rewrite <- !app_assoc.
Qed.

Lemma clickFirst_skip (pre rest : list Node) (s : State) :
  Forall nonMatching pre ->
  clickFirst w (pre ++ rest) s = clickFirst w rest s.
Proof.
  induction 1 as [|el pre Hel _ IH]; simpl; [reflexivity|].
  unfold nonMatching in Hel. now rewrite Hel.
Qed.

Lemma clickFirst_none (els : list Node) (s : State) :
  Forall nonMatching els -> clickFirst w els s = (Ret false, s).
Proof.
  intros H. rewrite <- (app_nil_r els). now rewrite clickFirst_skip.
Qed.

(** The state after a click on [el]. *)
Lemma clickFirst_first (pre post : list Node) (el : Node) (s : State) :
  Forall nonMatching pre ->
  regex_test (textContent el) = true ->
  clickFirst w (pre ++ el :: post) s =
    (Ret true,
     {| st_tick := st_tick s; st_log := st_log s ++ [Click el];
        st_page := st_page s; st_pending := w_click w el;
        st_responses := st_responses s; st_pageVar := st_pageVar s |}).
Proof.
  intros Hpre Hel. rewrite clickFirst_skip by assumption.
  simpl. rewrite Hel. reflexivity.
Qed.

End Fallback.

Lemma matches_a_button (q : bool) (sel : Selector) (n : Node) :
  In sel linkSelectors ->
  matches q sel n = true -> matches q sel_a_button n = true.
Proof.
  intros [<-|[<-|[]]]; unfold matches, sel_a, sel_button, sel_a_button; simpl;
    intros H; rewrite ?andb_true_r, ?orb_false_r in *; rewrite H;
    auto using orb_true_r.
Qed.

Lemma Forall_filter_weaken {A} (P : A -> Prop) (f g : A -> bool) (l : list A) :
  (forall x, f x = true -> g x = true) ->
  Forall P (filter g l) -> Forall P (filter f l).
Proof.
  intros Hfg. induction l as [|x l IH]; simpl; [auto|].
  destruct (f x) eqn:Hf.
  - rewrite (Hfg x Hf). intros H. inversion H; subst. constructor; auto.
  - destruct (g x); intros H; [inversion H; subst|]; auto.
Qed.

(** A page without a matching link or button yields no href. *)
Lemma nonMatching_noHref (doc : Document) :
  Forall nonMatching (querySelectorAll sel_a_button doc) -> noHref doc.
Proof.
  intros H sel Hsel. unfold entryPoint.
  rewrite scanElements_none; [reflexivity|].
  unfold querySelectorAll in *.
  eapply Forall_filter_weaken; [|exact H].
  intros n. now apply matches_a_button.
Qed.

Section NotFound.

Variable w : World.

(** On a landing page without any matching link or button the search
    ends with the not-found string, returned, after probing calls only. *)
Lemma follow_not_found (date : option string) (s : State) :
  noFaultFrom w (st_tick s) ->
  Forall nonMatching (querySelectorAll sel_a_button (document s)) ->
  exists (evs : list Event) (s' : State),
    follow w date s = (Ret notFound, s') /\
    st_log s' = st_log s ++ evs /\
    Forall (fun e => probe e = true) evs /\
    samePage s s' /\
    st_tick s <= st_tick s'.
Proof.
  intros Hnf Hnone.
  destruct (locate_falsy w linkSelectors None s (noFaultFrom_calm _ _ Hnf)
              eq_refl (nonMatching_noHref _ Hnone))
    as (v & evs & s1 & Hrun & Hv & Hlog & Hev & Hsame & Htick).
  unfold follow, bind. rewrite Hrun, Hv. simpl.
  unfold evaluate, call. run.
  rewrite (Hnf (st_tick s1)) by lia. simpl.
  destruct Hsame as (Hp & Hpend & Hvar & Hresp).
  unfold document in Hnone. rewrite <- Hp.
  rewrite clickFirst_none by assumption. simpl.
  eexists (evs ++ [Call OpEvaluate]), _. split; [reflexivity|]. simpl.
  repeat split; auto; try lia.
  - rewrite Hlog. now rewrite <- app_assoc.
  - apply Forall_app. split; [assumption | now repeat constructor].
Qed.

(** When no href was found and a matching element exists, the first
    such element is clicked and the navigation is awaited for at most
    10 seconds; the result is the URL of the page the click leads to,
    once the date has been entered there, or the time-out of the
    wait. *)
Lemma follow_clicks (date : option string) (s : State)
      (pre post : list Node) (el : Node) :
  noFaultFrom w (st_tick s) ->
  noHref (document s) ->
  querySelectorAll sel_a_button (document s) = pre ++ el :: post ->
  Forall nonMatching pre ->
  regex_test (textContent el) = true ->
  exists (evs rest : list Event),
    st_log (snd (follow w date s)) =
      st_log s ++ evs ++
      [Call OpEvaluate; Click el; Call (OpWaitForNavigation 10000%N)] ++ rest /\
    Forall (fun e => probe e = true) evs /\
    fst (follow w date s) =
      match w_click w el with
      | Some u => Ret (pc_url (dated w date (w_site w u)))
      | None => Throw (w_timeoutError w (OpWaitForNavigation 10000%N))
      end.
Proof.
  intros Hnf Hno Hels Hpre Hel.
  destruct (locate_falsy w linkSelectors None s (noFaultFrom_calm _ _ Hnf)
              eq_refl Hno)
    as (v & evs & s1 & Hrun & Hv & Hlog & Hev & Hsame & Htick).
  exists evs.
  unfold follow, bind. rewrite Hrun, Hv. simpl.
  unfold evaluate, call. run.
  rewrite (Hnf (st_tick s1)) by lia. simpl.
  destruct Hsame as (Hp & Hpend & Hvar & Hresp).
  unfold document in Hels. rewrite <- Hp, Hels.
  rewrite clickFirst_first by assumption. simpl.
  unfold waitForNavigation, call. run.
  rewrite (Hnf (S (st_tick s1))) by lia. simpl.
  destruct (w_click w el) as [u|]; simpl.
  - match goal with
    | |- context [report w date ?s2] =>
        destruct (report_dated w date s2) as (s' & E);
        [ eapply noFaultFrom_le; [exact Hnf | simpl; lia] | ];
        destruct (report_quiet w date s2) as (_ & _ & rest & Hrest & _)
    end.
    rewrite E in *. simpl in *. exists rest.
    split; [|split; [assumption | reflexivity]].
    rewrite Hrest, Hlog. now rewrite <- !app_assoc.
  - exists []. split; [|split; [assumption | reflexivity]].
    rewrite Hlog. now rewrite <- !app_assoc.
Qed.

End NotFound.

(** ** From the search to the landing page *)

Ltac nofault H := repeat (rewrite H by (simpl; lia); simpl).

Ltac calm H :=
  repeat (rewrite H by (simpl; first [lia | reflexivity]); simpl).

Lemma resultLinkAt_nonempty (html u : string) :
  resultLinkAt html = Some u -> u <> "".
Proof.
  unfold resultLinkAt.
  destruct (Str.startsWith resultLinkPrefix html); [|discriminate].
  destruct (Str.startsWith "https://" _).
  - destruct (String.eqb _ ""); [discriminate|]. now intros [= <-].
  - destruct (Str.startsWith "http://" _); [|discriminate].
    destruct (String.eqb _ ""); [discriminate|]. now intros [= <-].
Qed.

Lemma extractCourseUrl_nonempty (html u : string) :
  extractCourseUrl html = Some u -> String.eqb u "" = false.
Proof.
  intros H. apply String.eqb_neq. revert H.
  induction html as [|c html IH]; simpl.
  - discriminate.
  - destruct (resultLinkAt (String c html)) as [v|] eqn:Hv; [|exact IH].
    intros [= <-]. eapply resultLinkAt_nonempty; eauto.
Qed.

Section Landing.

Variable w : World.

(** One URL browsed for its HTML when none of these calls rejects. *)
Lemma browse_html_calm (u : string) (s : State) :
  calmFrom w (st_tick s) ->
  present Server.sel_body false (pc_document (w_site w u)) = true ->
  exists (evs : list Event) (s' : State),
    Server.browse w [u] true s = (Ret [RString (pc_html (w_site w u))], s') /\
    st_log s' = st_log s ++ evs /\
    Forall (fun e => benign e && noClick e = true) evs /\
    st_tick s <= st_tick s'.
Proof.
  intros Hnf Hbody.
  unfold Server.browse, Server.browse_loop, Server.browse_url,
    launch, newPage, goto, waitForSelector, content, closeBrowser,
    call, emit, setPage, setResponses.
  run. calm Hnf. rewrite Hbody. simpl. calm Hnf.
  eexists. eexists. split; [reflexivity|]. simpl. split; [|split; [|lia]].
  - now rewrite <- !app_assoc.
  - repeat constructor.
Qed.

(** One URL browsed for its HTML when nothing rejects. *)
Lemma browse_html_ok (u : string) (s : State) :
  noFaultFrom w (st_tick s) ->
  present Server.sel_body false (pc_document (w_site w u)) = true ->
  exists (evs : list Event) (s' : State),
    Server.browse w [u] true s = (Ret [RString (pc_html (w_site w u))], s') /\
    st_log s' = st_log s ++ evs /\
    Forall (fun e => benign e && noClick e = true) evs /\
    st_tick s <= st_tick s'.
Proof. intros Hnf. apply browse_html_calm. now apply noFaultFrom_calm. Qed.

(** With the search resolved and none of these calls rejecting,
    [findTeeTimes] opens its page, loads the landing page and goes on
    from there. *)
Lemma findTeeTimes_lands_calm (courseName courseUrl : string) (s : State) :
  calmFrom w (st_tick s) ->
  resolvesTo w courseName courseUrl ->
  exists (p : nat) (before : list Event) (s1 : State),
    (forall date, findTeeTimes w courseName date s = landed w date s1) /\
    st_page s1 = w_site w courseUrl /\
    st_pageVar s1 = Some p /\
    st_log s1 = st_log s ++ before ++
                [Call (OpNewPage None); PageOpened None p; Call (OpGoto courseUrl)] /\
    Forall (fun e => benign e && noClick e = true) before /\
    st_tick s <= st_tick s1.
Proof.
  intros Hnf (Hagent & Hbrowser & Hbody & Hurl).
  destruct (browse_html_calm (googleSearchUrl courseName) s Hnf Hbody)
    as (evs & s0 & Hrun & Hlog & Hev & Htick).
  exists (st_tick s0), evs,
    {| st_tick := S (S (st_tick s0));
       st_log := ((st_log s0 ++ [Call (OpNewPage None)])
                  ++ [PageOpened None (st_tick s0)])
                 ++ [Call (OpGoto courseUrl)];
       st_page := w_site w courseUrl;
       st_pending := None;
       st_responses := st_responses s0;
       st_pageVar := Some (st_tick s0) |}.
  split; [|simpl; repeat split; auto; try lia;
            rewrite Hlog; now rewrite <- !app_assoc].
  intros date. unfold findTeeTimes. rewrite Hagent, Hbrowser. simpl.
  unfold try_catch at 1. unfold bind at 1. rewrite Hrun. simpl.
  destruct (pc_html (w_site w (googleSearchUrl courseName)))
    as [|c html] eqn:Hhtml; [discriminate|].
  rewrite Hurl, (extractCourseUrl_nonempty _ _ Hurl).
  unfold landed, withPage, guarded, discover, newPage, goto,
    call, emit, setPage, setPageVar.
  run. calm Hnf. reflexivity.
Qed.

(** With the search resolved and nothing rejecting, [findTeeTimes]
    opens its page, loads the landing page and goes on from there. *)
Lemma findTeeTimes_lands (courseName courseUrl : string)
      (date : option string) (s : State) :
  noFaultFrom w (st_tick s) ->
  resolvesTo w courseName courseUrl ->
  exists (p : nat) (before : list Event) (s1 : State),
    findTeeTimes w courseName date s = landed w date s1 /\
    st_page s1 = w_site w courseUrl /\
    st_pageVar s1 = Some p /\
    st_log s1 = st_log s ++ before ++
                [Call (OpNewPage None); PageOpened None p; Call (OpGoto courseUrl)] /\
    Forall (fun e => benign e && noClick e = true) before /\
    noFaultFrom w (st_tick s1).
Proof.
  intros Hnf Hres.
  destruct (findTeeTimes_lands_calm courseName courseUrl s
              (noFaultFrom_calm _ _ Hnf) Hres)
    as (p & before & s1 & Hrun & Hpage & Hvar & Hlog & Hev & Htick).
  exists p, before, s1. repeat split; auto.
  eapply noFaultFrom_le; eauto.
Qed.

End Landing.

(** ** The end of [findTeeTimes] *)

(** Once on the landing page, and with nothing rejecting, the outcome of
    the search of the page becomes the result of the tool, and the page
    is closed after it. *)
Lemma landed_run_calm (w : World) (date : option string) (s : State)
      (p : nat) :
  calmFrom w (st_tick s) ->
  st_pageVar s = Some p ->
  fst (landed w date s) =
    match fst (follow w date s) with
    | Ret u => Ret u
    | Throw e => Ret ("Error finding tee times: " ++ e)%string
    end /\
  st_log (snd (landed w date s)) =
    st_log (snd (follow w date s)) ++ [Call (OpPageClose p)].
Proof.
  intros Hnf Hp.
  destruct (follow_quiet w date s) as (Hvar & Htick & _).
  unfold landed, release, closePage, call. run.
  destruct (follow w date s) as [[u|e] s2]; simpl in *;
    rewrite Hvar, Hp; simpl;
    rewrite (Hnf (st_tick s2)) by first [lia | reflexivity]; simpl; auto.
Qed.

Lemma landed_run (w : World) (date : option string) (s : State) (p : nat) :
  noFaultFrom w (st_tick s) ->
  st_pageVar s = Some p ->
  fst (landed w date s) =
    match fst (follow w date s) with
    | Ret u => Ret u
    | Throw e => Ret ("Error finding tee times: " ++ e)%string
    end /\
  st_log (snd (landed w date s)) =
    st_log (snd (follow w date s)) ++ [Call (OpPageClose p)].
Proof. intros Hnf. apply landed_run_calm. now apply noFaultFrom_calm. Qed.

(** C5. With the search resolved to a course site and no call
    rejecting: on a landing page where no link or button matches the
    pattern, [findTeeTimes] returns (it does not throw) the literal
    not-found string, without any click; and when no href was found but
    some link or button matches, the first such element in document
    order is clicked, nothing else was clicked before, and the
    navigation is awaited with a time-out of 10000 ms, the result being
    the URL reached (that of the page the click leads to, as the date
    block leaves it: without a date, the page itself) or the reported
    time-out. *)
Theorem C5_not_found_or_click
        (w : World) (courseName courseUrl : string)
        (date : option string) (s : State) :
  noFaultFrom w (st_tick s) ->
  resolvesTo w courseName courseUrl ->
  let doc := pc_document (w_site w courseUrl) in
  let run := findTeeTimes w courseName date s in
  (Forall nonMatching (querySelectorAll sel_a_button doc) ->
   fst run = Ret "No tee times link or button found on the landing page." /\
   exists evs, st_log (snd run) = st_log s ++ evs /\
               Forall (fun e => noClick e = true) evs) /\
  (forall (pre post : list Node) (el : Node),
      noHref doc ->
      querySelectorAll sel_a_button doc = pre ++ el :: post ->
      Forall nonMatching pre ->
      regex_test (textContent el) = true ->
      exists before rest : list Event,
        st_log (snd run) =
          st_log s ++ before ++
          [Call OpEvaluate; Click el; Call (OpWaitForNavigation 10000%N)]
          ++ rest /\
        Forall (fun e => noClick e = true) before /\
        fst run =
          match w_click w el with
          | Some u => Ret (pc_url (dated w date (w_site w u)))
          | None =>
              Ret ("Error finding tee times: " ++
                   w_timeoutError w (OpWaitForNavigation 10000%N))%string
          end).
Proof.
  intros Hnf Hres doc run.
  destruct (findTeeTimes_lands w courseName courseUrl date s Hnf Hres)
    as (p & before & s1 & Hrun & Hpage & Hvar & Hlog & Hbefore & Hnf1).
  assert (Hdoc : document s1 = doc) by (unfold document; now rewrite Hpage).
  destruct (landed_run w date s1 p Hnf1 Hvar) as [Hfst Hsnd].
  assert (Hquiet : Forall (fun e => noClick e = true) before).
  { eapply Forall_impl; [|exact Hbefore].
    intros e He. now apply andb_prop in He. }
  unfold run. rewrite Hrun. split.
  - intros Hnone. rewrite <- Hdoc in Hnone.
    destruct (follow_not_found w date s1 Hnf1 Hnone)
      as (evs & s2 & Hf & Hl2 & Hev & _).
    rewrite Hf in *. simpl in *. split; [exact Hfst|].
    eexists. rewrite Hsnd, Hl2, Hlog. split.
    + rewrite <- !app_assoc. reflexivity.
    + repeat (apply Forall_app; split); auto; try (now repeat constructor).
      eapply Forall_impl; [|exact Hev].
      intros [[]| | | | | | |]; simpl; auto; discriminate.
  - intros pre post el Hno Hels Hpre Hel. rewrite <- Hdoc in Hno, Hels.
    destruct (follow_clicks w date s1 pre post el Hnf1 Hno Hels Hpre Hel)
      as (evs & rest & Hl2 & Hev & Hr).
    exists (before ++ [Call (OpNewPage None); PageOpened None p;
                       Call (OpGoto courseUrl)] ++ evs),
           (rest ++ [Call (OpPageClose p)]).
    split; [|split].
    + rewrite Hsnd, Hl2, Hlog. rewrite <- !app_assoc. reflexivity.
    + repeat (apply Forall_app; split); auto; try (now repeat constructor).
      eapply Forall_impl; [|exact Hev].
      intros [[]| | | | | | |]; simpl; auto; discriminate.
    + rewrite Hfst, Hr. now destruct (w_click w el).
Qed.

Lemma C5_witness :
  fst (findTeeTimes worldC "Pebble Creek" (Some "2024-06-01") init)
    = Ret "No tee times link or button found on the landing page." /\
  fst (findTeeTimes worldB "Pebble Creek" None init)
    = Ret "https://book.example/slots".
Proof.
  assert (HC : noFaultFrom worldC (st_tick init)) by (intros n op _; reflexivity).
  assert (HB : noFaultFrom worldB (st_tick init)) by (intros n op _; reflexivity).
  assert (RC : resolvesTo worldC "Pebble Creek" courseSite)
    by (repeat split; reflexivity).
  assert (RB : resolvesTo worldB "Pebble Creek" courseSite)
    by (repeat split; reflexivity).
  split.
  - refine (proj1 (proj1 (C5_not_found_or_click worldC "Pebble Creek"
                            courseSite (Some "2024-06-01") init HC RC) _)).
    repeat constructor.
  - destruct (proj2 (C5_not_found_or_click worldB "Pebble Creek"
                       courseSite None init HB RB)
                [about] [] reserve) as (before & rest & _ & _ & H).
    + intros sel [<-|[<-|[]]]; reflexivity.
    + reflexivity.
    + repeat constructor.
    + reflexivity.
    + exact H.
Defined.

(** ** Pages and sessions are released *)

Section Release.

Variable w : World.

Lemma browse_url_quiet url rh : keeps quietly (Server.browse_url w url rh).
Proof. unfold Server.browse_url. footprint. Qed.

Lemma browse_quiet urls rh : keeps quietly (Server.browse w urls rh).
Proof.
  unfold Server.browse. footprint.
  induction urls as [|u urls IH]; simpl; footprint; apply browse_url_quiet.
Qed.

Lemma benign_counts (p : nat) (evs : list Event) :
  Forall (fun e => benign e = true) evs ->
  opened p evs = 0 /\ closed p evs = 0.
Proof.
  unfold opened, closed.
  induction 1 as [|e evs He _ [IHo IHc]]; simpl; [auto|].
  destruct e as [[]| |[|]| | | | |]; simpl in *; auto; discriminate.
Qed.

Lemma quietly_balanced (s s' : State) : quietly s s' -> balanced s s'.
Proof.
  intros (_ & _ & evs & Hlog & Hev). exists evs. split; [assumption|].
  intros p. destruct (benign_counts p evs Hev) as [-> ->]. auto.
Qed.

Lemma opened_app p l1 l2 : opened p (l1 ++ l2) = opened p l1 + opened p l2.
Proof. unfold opened. now rewrite filter_app, length_app. Qed.

Lemma closed_app p l1 l2 : closed p (l1 ++ l2) = closed p l1 + closed p l2.
Proof. unfold closed. now rewrite filter_app, length_app. Qed.

Lemma quietly_then_balanced (s1 s2 s3 : State) :
  quietly s1 s2 -> balanced s2 s3 -> balanced s1 s3.
Proof.
  intros (_ & _ & e1 & Hl1 & Hb1) (e2 & Hl2 & Hc).
  exists (e1 ++ e2). split; [now rewrite Hl2, Hl1, app_assoc|].
  intros p. rewrite opened_app, closed_app.
  destruct (benign_counts p e1 Hb1) as [-> ->]. apply Hc.
Qed.

(** The first call of the [try] block decides whether there is a page. *)
Lemma discover_run (courseUrl : string) (date : option string) (s : State) :
  discover w courseUrl date s =
    match w_fault w (st_tick s) (OpNewPage None) with
    | Some e =>
        (Throw e,
         {| st_tick := S (st_tick s);
            st_log := st_log s ++ [Call (OpNewPage None)];
            st_page := st_page s; st_pending := st_pending s;
            st_responses := st_responses s; st_pageVar := st_pageVar s |})
    | None =>
        (goto w courseUrl ;;; follow w date)
          {| st_tick := S (st_tick s);
             st_log := (st_log s ++ [Call (OpNewPage None)])
                       ++ [PageOpened None (st_tick s)];
             st_page := blank; st_pending := None;
             st_responses := st_responses s;
             st_pageVar := Some (st_tick s) |}
    end.
Proof.
  unfold discover, newPage, call, emit, setPage, setPageVar.
  unfold bind at 1 2 3 4 5. unfold modify, ret.
  destruct (w_fault w (st_tick s) (OpNewPage None)); reflexivity.
Qed.

(** The [finally] block closes the page that the [try] block opened,
    and closes nothing when no page was opened. *)
Lemma withPage_balanced (courseUrl : string) (date : option string) (s : State) :
  balanced s (snd (withPage w courseUrl date s)).
Proof.
  unfold withPage, guarded, try_finally, try_catch.
  unfold bind at 1. unfold setPageVar, modify at 1. cbv beta iota.
  rewrite discover_run. cbn [st_tick st_log].
  destruct (w_fault w (st_tick s) (OpNewPage None)) as [e|].
  - exists [Call (OpNewPage None)]. split; [reflexivity|].
    intros p. unfold opened, closed. simpl. auto.
  - match goal with
    | |- context [(goto w courseUrl ;;; follow w date) ?s2] =>
        assert (Hq : quietly s2 (snd ((goto w courseUrl ;;; follow w date) s2)))
          by (apply keeps_bind;
              [exact quietly_trans | apply goto_quiet
              | intros _; apply follow_quiet]);
        destruct ((goto w courseUrl ;;; follow w date) s2) as [r s3]
    end.
    destruct Hq as (Hvar & _ & evs & Hlog & Hev). simpl in Hvar, Hlog.
    exists ([Call (OpNewPage None); PageOpened None (st_tick s)] ++ evs
            ++ [Call (OpPageClose (st_tick s))]).
    split.
    + destruct r as [a|e]; unfold release, closePage, call, get, bind, ret;
        simpl; rewrite Hvar; simpl;
        destruct (w_fault w (st_tick s3) _); simpl;
        rewrite Hlog; now rewrite <- !app_assoc.
    + intros p. rewrite !opened_app, !closed_app.
      destruct (benign_counts p evs Hev) as [-> ->].
      unfold opened, closed. simpl.
      destruct (Nat.eqb (st_tick s) p); simpl; auto.
Qed.

(** X8. The resource law of [findTeeTimes]: on every path, whatever
    rejects, the page opened after the course URL was resolved is
    closed exactly once, and no page is closed that was not opened. *)
Lemma findTeeTimes_page_closed_once
      (courseName : string) (date : option string) (s : State) :
  balanced s (snd (findTeeTimes w courseName date s)).
Proof.
  unfold findTeeTimes.
  destruct (w_agent w); simpl; [|apply quietly_balanced, quietly_refl].
  unfold try_catch.
  destruct (w_MYBROWSER w) eqn:Hb; simpl;
    [|apply quietly_balanced, quietly_refl].
  unfold bind at 1.
  pose proof (browse_quiet [googleSearchUrl courseName] true s) as Hq.
  destruct (Server.browse w [googleSearchUrl courseName] true s) as [[rs|e] s0];
    simpl in *; [|now apply quietly_balanced].
  destruct (hd_error rs) as [[html|links]|]; unfold ret, throw; simpl;
    try (now apply quietly_balanced).
  destruct html as [|c html]; [now apply quietly_balanced|].
  cbv beta iota.
  destruct (extractCourseUrl (String c html)) as [u|];
    [|now apply quietly_balanced].
  destruct (String.eqb u ""); [now apply quietly_balanced|].
  pose proof (withPage_balanced u date s0) as Hw.
  destruct (withPage w u date s0) as [[a|e] s1]; simpl in *;
    eapply quietly_then_balanced; eauto.
Qed.

End Release.

(** ** [browse] *)

(** C1, the part that fails.  [browse] closes the browser at the end of
    its [try] block, not in a [finally]: when the navigation rejects,
    the session that was launched for the URL is never closed.  (The
    page of [findTeeTimes] is closed exactly once on every path, see
    [findTeeTimes_page_closed_once].) *)
Theorem C1_browse_leaks_session :
  let run := Server.browse unreachable ["https://no-such-course.example/"]
               false init in
  fst run =
    Ret [RString "Error browsing URL https://no-such-course.example/: Error: net::ERR_NAME_NOT_RESOLVED"] /\
  st_log (snd run) =
    [ Call OpLaunch; Launched 0; Call (OpNewPage (Some 0));
      PageOpened (Some 0) 1; Call (OpGoto "https://no-such-course.example/") ] /\
  leaked 0 (st_log (snd run)).
Proof. repeat split; vm_compute; reflexivity. Qed.

(** The same for any world: once the browser is launched, a rejection
    of the navigation leaves it open. *)
Lemma browse_url_leaks (w : World) (url e : string) (rh : bool) (s : State) :
  w_fault w (st_tick s) OpLaunch = None ->
  w_fault w (S (st_tick s)) (OpNewPage (Some (st_tick s))) = None ->
  w_fault w (S (S (st_tick s))) (OpGoto url) = Some e ->
  st_log (snd (Server.browse_url w url rh s)) =
    st_log s ++
    [ Call OpLaunch; Launched (st_tick s);
      Call (OpNewPage (Some (st_tick s)));
      PageOpened (Some (st_tick s)) (S (st_tick s)); Call (OpGoto url) ].
Proof.
  intros H1 H2 H3.
  unfold Server.browse_url, launch, newPage, goto, call, emit, setPage,
    setResponses.
  run. rewrite H1. simpl. rewrite H2. simpl. rewrite H3. simpl.
  now rewrite <- !app_assoc.
Qed.

(** C7, where it fails.  The result is pushed before the browser is
    closed, inside the same [try]: when [browser.close()] rejects, the
    [catch] block pushes a second entry for the same URL, so one URL
    yields two results.  And a session that was not closed because of an
    error is still open when the session of the next URL is launched. *)
Theorem C7_browse_result_count :
  fst (Server.browse stuckClose ["https://a.example/"] true init) =
    Ret [ RString "<html><body><a>About us</a></body></html>";
          RString "Error browsing URL https://a.example/: Error: Protocol error (Browser.close): Target closed" ] /\
  (let log := st_log (snd (Server.browse flaky
                             ["https://a.example/"; "https://b.example/"]
                             false init)) in
   leaked 0 log /\ launched 3 log = true /\ closeCalled 3 log = true).
Proof. repeat split; vm_compute; reflexivity. Qed.

Section OneResult.

Variable w : World.

Hypothesis close_ok : forall (n b : nat), w_fault w n (OpBrowserClose b) = None.

(** The visit fails at call [k]: the calls before it went through, as
    the hypotheses in the context say, and call [k] did not. *)
Ltac failed k :=
  eexists; split; [reflexivity|]; right; exists k; eexists;
  split; [|split; reflexivity];
  split;
  [ intros j Hj;
    do 5 (destruct j as [|j];
          [ unfold stepError; simpl;
            repeat match goal with H : _ = _ |- _ => rewrite H end;
            try reflexivity; try lia | ]);
    lia
  | unfold stepError; simpl;
    repeat match goal with H : _ = _ |- _ => rewrite H end;
    reflexivity ].

(** When closing the browser does not reject, one URL adds exactly one
    entry: the answer of the page when every call goes through, and
    otherwise the string that carries the error of the first call that
    fails. *)
Lemma browse_url_one (url : string) (rh : bool) (s : State) :
  exists s',
    Server.browse_url w url rh s = (Ret tt, s') /\
    ((goesThrough w rh url (st_tick s) /\
      st_responses s' = st_responses s ++ [pageAnswer w rh url] /\
      st_tick s' = 6 + st_tick s) \/
     (exists (k : nat) (e : string),
         failsAt w rh url (st_tick s) k e /\
         st_responses s' =
           st_responses s ++
           [RString ("Error browsing URL " ++ url ++ ": " ++ e)%string] /\
         st_tick s' = S k + st_tick s)).
Proof.
  unfold Server.browse_url, launch, newPage, goto, waitForSelector,
    content, evalAll, closeBrowser, call, emit, setPage, setResponses.
  run.
  destruct (w_fault w (st_tick s) OpLaunch) eqn:H0; simpl; [failed 0|].
  destruct (w_fault w (S (st_tick s)) _) eqn:H1; simpl; [failed 1|].
  destruct (w_fault w (S (S (st_tick s))) _) eqn:H2; simpl; [failed 2|].
  destruct (w_fault w (S (S (S (st_tick s)))) _) eqn:H3; simpl; [failed 3|].
  destruct (present Server.sel_body false _) eqn:Hbody; simpl; [|failed 3].
  destruct rh; simpl;
    (destruct (w_fault w (S (S (S (S (st_tick s))))) _) eqn:H4; simpl;
     [failed 4|]);
    rewrite close_ok; simpl;
    (eexists; split; [reflexivity|]; left; split; [|split; reflexivity];
     intros j;
     do 5 (destruct j as [|j];
           [ unfold stepError; simpl;
             repeat match goal with H : _ = _ |- _ => rewrite H end;
             reflexivity | ]);
     unfold stepError; simpl; now destruct j).
Qed.

Lemma browse_loop_results (urls : list string) (rh : bool) :
  forall s : State,
  exists (rs : list Response) (s' : State),
    Server.browse_loop w urls rh s = (Ret tt, s') /\
    st_responses s' = st_responses s ++ rs /\
    Visits w rh (st_tick s) urls rs.
Proof.
  induction urls as [|url urls IH]; intros s; simpl.
  - exists [], s. rewrite app_nil_r. repeat split. constructor.
  - destruct (browse_url_one url rh s)
      as (s1 & Hrun & [(Hok & Hresp & Htick)|(k & e & Hfail & Hresp & Htick)]);
      destruct (IH s1) as (rs & s' & Hrun' & Hresp' & Hall);
      unfold bind; rewrite Hrun, Hrun';
      rewrite Hresp in Hresp'; rewrite <- app_assoc in Hresp';
      rewrite Htick in Hall.
    + eexists (_ :: rs), s'. repeat split; [exact Hresp'|]. now constructor.
    + eexists (_ :: rs), s'. repeat split; [exact Hresp'|].
      econstructor; eassumption.
Qed.

Lemma Visits_length (rh : bool) (t : nat) (urls : list string)
      (rs : list Response) :
  Visits w rh t urls rs -> length rs = length urls.
Proof. induction 1; simpl; congruence. Qed.

(** X6. When closing the browser does not reject, [browse] returns one
    entry per URL, in the order of the URLs: the answer of the page
    when every call of the visit goes through, and otherwise the string
    that names the URL and carries the error of the first call of the
    visit that fails (the error it rejects with, or the time-out of
    the wait for a body); after a failed visit the loop goes on with
    the next URL. *)
Lemma browse_one_result_per_url (urls : list string) (rh : bool) (s : State) :
  exists rs : list Response,
    fst (Server.browse w urls rh s) = Ret rs /\
    length rs = length urls /\
    Visits w rh (st_tick s) urls rs.
Proof.
  unfold Server.browse, setResponses. run.
  match goal with
  | |- context [Server.browse_loop w urls rh ?s0] =>
      destruct (browse_loop_results urls rh s0)
        as (rs & s' & Hrun & Hresp & Hall)
  end.
  rewrite Hrun. simpl in *. exists rs. rewrite Hresp.
  repeat split; auto. eapply Visits_length; eauto.
Qed.

End OneResult.

(** ** The date and the listeners of the page *)

Section DateIrrelevant.

Variable w : World.

Hypothesis close_ok : forall (n p : nat), w_fault w n (OpPageClose p) = None.

Hypothesis listeners_stay : inert w.











End DateIrrelevant.

(** ** The end-to-end scenarios *)

(** Scenario A: the entry point is a link; its [href] is followed
    without a click, and is the result. *)
Example scenario_A :
  let run := findTeeTimes
               (worldOf (siteWith [about; book]) (fun _ => None))
               "Pebble Creek" None init in
  fst run = Ret "https://pebblecreek-golf.example/tee-times" /\
  forallb noClick (st_log (snd run)) = true.
Proof. split; vm_compute; reflexivity. Qed.

(** Scenario D: on the tee-times page the date goes into the input
    found by the first strategy, and the URL reported is that of the
    page. *)
Example scenario_D :
  let site u :=
    if String.eqb u "https://pebblecreek-golf.example/tee-times"
    then pageOf u [Element "INPUT" [("type", "date"); ("id", "res-date")] true []]
    else siteWith [book] u in
  let input := Element "INPUT" [("type", "date"); ("id", "res-date")] true [] in
  let run := findTeeTimes (worldOf site (fun _ => None))
               "Pebble Creek" (Some "2024-06-01") init in
  fst run = Ret "https://pebblecreek-golf.example/tee-times" /\
  skipn 17 (st_log (snd run)) =
    [ SetValue input "2024-06-01";
      Dispatch input "input" true; Dispatch input "change" true;
      Sleep 2000%N; Call (OpPageClose 6) ].
Proof. split; vm_compute; reflexivity. Qed.

(** ** Strings *)

Lemma string_app_assoc (a b c : string) :
  ((a ++ b) ++ c = a ++ (b ++ c))%string.
Proof. induction a as [|x a IH]; simpl; [reflexivity | now rewrite IH]. Qed.

Lemma string_app_nil_r (a : string) : (a ++ "" = a)%string.
Proof. induction a as [|x a IH]; simpl; [reflexivity | now rewrite IH]. Qed.

(** ** The entry-point pattern *)

(** X1. The second alternative of the entry-point pattern adds
    nothing: a text matches [/tee times|book(ing)? tee times|reserve/i]
    exactly when it matches [/tee times|reserve/i]. *)
Theorem X1_pattern_second_alternative_redundant (text : string) :
  regex_test text =
  Regex.test true
    (Regex.Alt (Regex.Lit "tee times") (Regex.Lit "reserve")) text.
Proof.
  apply eq_true_iff_eq. unfold regex_test.
  split; intros H; apply test_lang in H; apply test_lang; revert H.
  - intros (s0 & m & s2 & -> & H).
    apply lang_alt_inv in H as [H|H].
    + exists s0, m, s2. split; [reflexivity | now apply Regex.lang_alt_l].
    + apply lang_alt_inv in H as [H|H].
      * apply lang_cat_inv in H as (m1 & m23 & -> & _ & H).
        apply lang_cat_inv in H as (m2 & m3 & -> & _ & H).
        change (Regex.Lit " tee times")
          with (Regex.Cat (Regex.Chr " ") (Regex.Lit "tee times")) in H.
        apply lang_cat_inv in H as (c & m4 & -> & _ & H).
        exists (s0 ++ m1 ++ m2 ++ c)%string, m4, s2. split.
        -- now rewrite !string_app_assoc.
        -- now apply Regex.lang_alt_l.
      * exists s0, m, s2. split; [reflexivity | now apply Regex.lang_alt_r].
  - intros (s0 & m & s2 & -> & H). exists s0, m, s2. split; [reflexivity|].
    apply lang_alt_inv in H as [H|H].
    + now apply Regex.lang_alt_l.
    + apply Regex.lang_alt_r. now apply Regex.lang_alt_r.
Qed.

(** ** The first result link *)

Lemma startsWith_app (p s : string) : Str.startsWith p (p ++ s) = true.
Proof.
  induction p as [|c p IH]; simpl; [reflexivity|].
  now rewrite Ascii.eqb_refl.
Qed.

Lemma startsWith_split (p : string) :
  forall s, Str.startsWith p s = true ->
            s = (p ++ Str.drop (String.length p) s)%string.
Proof.
  induction p as [|c p IH]; intros s; simpl; [reflexivity|].
  destruct s as [|d s]; [discriminate|].
  intros H. apply andb_prop in H as [Hc Hp].
  apply Ascii.eqb_eq in Hc as ->. now rewrite <- IH.
Qed.

Lemma drop_app (p s : string) : Str.drop (String.length p) (p ++ s) = s.
Proof. induction p as [|c p IH]; simpl; auto. Qed.

Lemma takeWhile_split (p : ascii -> bool) (s : string) :
  exists rest,
    s = (Str.takeWhile p s ++ rest)%string /\
    allChars p (Str.takeWhile p s) = true /\
    match rest with
    | EmptyString => True
    | String c _ => p c = false
    end.
Proof.
  induction s as [|c s (rest & E & Hall & Hstop)]; simpl.
  - now exists "".
  - destruct (p c) eqn:Hc; simpl.
    + exists rest. rewrite Hc. now rewrite <- E.
    + now exists (String c s).
Qed.

Lemma takeWhile_app (p : ascii -> bool) (b rest : string) :
  allChars p b = true ->
  match rest with
  | EmptyString => True
  | String c _ => p c = false
  end ->
  Str.takeWhile p (b ++ rest) = b.
Proof.
  induction b as [|c b IH]; simpl.
  - intros _. destruct rest as [|c r]; simpl; [reflexivity|]. now intros ->.
  - intros H Hr. apply andb_prop in H as [-> Hb]. now rewrite IH.
Qed.

Lemma stops_spec (rest : string) :
  stops rest = true <->
  match rest with
  | EmptyString => True
  | String c _ => notAmpQuote c = false
  end.
Proof.
  destruct rest as [|c r]; simpl; [tauto|].
  destruct (notAmpQuote c); simpl; intuition discriminate.
Qed.

(** What a match at the head of a string yields. *)
Lemma resultLinkAt_sound (s u : string) :
  resultLinkAt s = Some u ->
  exists rest,
    s = (resultLinkPrefix ++ u ++ rest)%string /\
    resultUrl u /\ stops rest = true.
Proof.
  unfold resultLinkAt.
  destruct (Str.startsWith resultLinkPrefix s) eqn:Hp; [|discriminate].
  apply startsWith_split in Hp.
  set (tl := Str.drop (String.length resultLinkPrefix) s) in *.
  assert (Hcap : forall scheme,
             (scheme = "https://" \/ scheme = "http://") ->
             Str.startsWith scheme tl = true ->
             (if String.eqb
                   (Str.takeWhile notAmpQuote
                      (Str.drop (String.length scheme) tl)) ""
              then None
              else Some (scheme ++ Str.takeWhile notAmpQuote
                                     (Str.drop (String.length scheme) tl))%string)
             = Some u ->
             exists rest,
               s = (resultLinkPrefix ++ u ++ rest)%string /\
               resultUrl u /\ stops rest = true).
  { intros scheme Hs Hst.
    apply startsWith_split in Hst.
    destruct (takeWhile_split notAmpQuote
                (Str.drop (String.length scheme) tl))
      as (rest & E & Hall & Hstop).
    destruct (String.eqb_spec
                (Str.takeWhile notAmpQuote
                   (Str.drop (String.length scheme) tl)) "") as [|Hne];
      [discriminate|].
    intros [= <-]. exists rest. split; [|split].
    - rewrite Hp at 1. f_equal. rewrite Hst at 1.
      rewrite string_app_assoc. f_equal. exact E.
    - eexists scheme, _. repeat split; eauto.
    - now apply stops_spec. }
  destruct (Str.startsWith "https://" tl) eqn:H1.
  - apply Hcap; auto.
  - destruct (Str.startsWith "http://" tl) eqn:H2; [|discriminate].
    apply Hcap; auto.
Qed.

(** X2. A URL that [extractCourseUrl] returns stands in the text right
    after the opening of a result link ([resultLinkPrefix]); it begins
    with [http://] or [https://],
    has at least one character after the scheme, holds no ampersand and
    no double quote, and runs up to the next ampersand, double quote or
    the end of the text. *)
Theorem X2_extractCourseUrl_sound (html u : string) :
  extractCourseUrl html = Some u ->
  exists pre rest : string,
    html = (pre ++ resultLinkPrefix ++ u ++ rest)%string /\
    resultUrl u /\
    stops rest = true.
Proof.
  induction html as [|c html IH]; simpl.
  - discriminate.
  - destruct (resultLinkAt (String c html)) as [v|] eqn:Hv.
    + intros [= <-]. apply resultLinkAt_sound in Hv as (rest & E & Hu & Hr).
      now exists "", rest.
    + intros H. destruct (IH H) as (pre & rest & -> & Hu & Hr).
      now exists (String c pre), rest.
Qed.

Lemma X2_witness :
  exists pre rest : string,
    pc_html searchPage =
      (pre ++ resultLinkPrefix ++ courseSite ++ rest)%string /\
    resultUrl courseSite /\
    stops rest = true.
Proof.
  exact (X2_extractCourseUrl_sound (pc_html searchPage) courseSite eq_refl).
Defined.

Lemma resultLinkAt_complete (u rest : string) :
  resultUrl u -> stops rest = true ->
  resultLinkAt (resultLinkPrefix ++ u ++ rest) = Some u.
Proof.
  intros (scheme & body & Hs & -> & Hne & Hall) Hr.
  apply stops_spec in Hr.
  unfold resultLinkAt. rewrite startsWith_app, drop_app.
  rewrite string_app_assoc.
  pose proof (takeWhile_app notAmpQuote body rest Hall Hr) as Htw.
  apply String.eqb_neq in Hne.
  destruct Hs as [-> | ->].
  - rewrite startsWith_app, drop_app, Htw, Hne. reflexivity.
  - change (Str.startsWith "https://" ("http://" ++ body ++ rest)) with false.
    cbv iota. rewrite startsWith_app, drop_app, Htw, Hne. reflexivity.
Qed.

Lemma resultLinkAt_notLt (c : ascii) (s : string) :
  notLt c = true -> resultLinkAt (String c s) = None.
Proof.
  unfold notLt, resultLinkAt. intros H. apply negb_true_iff in H.
  rewrite Ascii.eqb_sym in H.
  change (Str.startsWith resultLinkPrefix (String c s))
    with (Ascii.eqb "<" c &&
          Str.startsWith (Str.drop 1 resultLinkPrefix) s).
  now rewrite H.
Qed.

Lemma extractCourseUrl_head (s u : string) :
  resultLinkAt s = Some u -> extractCourseUrl s = Some u.
Proof.
  destruct s as [|c s]; [discriminate|].
  intros H. cbn [extractCourseUrl]. now rewrite H.
Qed.

(** X3. A result link is found again: when the text before it holds no
    [<], the text [pre ++ resultLinkPrefix ++ u ++ rest] yields [u], for
    every URL [u] of the shape the pattern captures and every [rest]
    that is empty or begins with an ampersand or a double quote. *)
Theorem X3_extractCourseUrl_finds_link (pre u rest : string) :
  allChars notLt pre = true ->
  resultUrl u ->
  stops rest = true ->
  extractCourseUrl (pre ++ resultLinkPrefix ++ u ++ rest) = Some u.
Proof.
  intros Hpre Hu Hr. induction pre as [|c pre IH].
  - apply extractCourseUrl_head. now apply resultLinkAt_complete.
  - simpl in Hpre. apply andb_prop in Hpre as [Hc Hpre].
    change (extractCourseUrl (String c pre ++ resultLinkPrefix ++ u ++ rest))
      with (match resultLinkAt (String c (pre ++ resultLinkPrefix ++ u ++ rest)) with
            | Some v => Some v
            | None => extractCourseUrl (pre ++ resultLinkPrefix ++ u ++ rest)
            end).
    rewrite resultLinkAt_notLt by assumption. now apply IH.
Qed.

Lemma X3_witness :
  extractCourseUrl
    ("Results: " ++ resultLinkPrefix
     ++ "https://www.pebblecreek-golf.example/" ++ "&sa=U")
  = Some "https://www.pebblecreek-golf.example/".
Proof.
  apply (X3_extractCourseUrl_finds_link "Results: "
           "https://www.pebblecreek-golf.example/" "&sa=U").
  - reflexivity.
  - exists "https://", "www.pebblecreek-golf.example/".
    repeat split; [now left | discriminate].
  - reflexivity.
Defined.

(** ** The search URL *)

Lemma allChars_app (p : ascii -> bool) (a b : string) :
  allChars p (a ++ b) = allChars p a && allChars p b.
Proof.
  induction a as [|c a IH]; simpl; [reflexivity|].
  now rewrite IH, andb_assoc.
Qed.

Lemma allChars_impl (p q : ascii -> bool) (s : string) :
  (forall c, p c = true -> q c = true) ->
  allChars p s = true -> allChars q s = true.
Proof.
  intros Hpq. induction s as [|c s IH]; simpl; [reflexivity|].
  intros H. apply andb_prop in H as [Hc Hs]. now rewrite (Hpq c Hc), IH.
Qed.

Lemma escape_safe (c : ascii) :
  allChars urlSafe
    ("%" ++ hexDigit (nat_of_ascii c / 16) ++ hexDigit (nat_of_ascii c mod 16))
  = true.
Proof.
  destruct c as [[] [] [] [] [] [] [] []]; vm_compute; reflexivity.
Qed.

Lemma urlSafe_notLt (c : ascii) : urlSafe c = true -> notLt c = true.
Proof.
  unfold notLt. destruct (Ascii.eqb_spec c "<"%char) as [->|]; [|reflexivity].
  vm_compute. discriminate.
Qed.

Lemma encode_step (c : ascii) (s : string) :
  encodeURIComponent (String c s) =
    if unreserved c then String c (encodeURIComponent s)
    else (("%" ++ hexDigit (nat_of_ascii c / 16)
               ++ hexDigit (nat_of_ascii c mod 16))
          ++ encodeURIComponent s)%string.
Proof.
  cbn [encodeURIComponent]. destruct (unreserved c); [reflexivity|].
  now rewrite !string_app_assoc.
Qed.

Lemma encodeURIComponent_safe (s : string) :
  allChars urlSafe (encodeURIComponent s) = true.
Proof.
  induction s as [|c s IH]; [reflexivity|].
  rewrite encode_step. destruct (unreserved c) eqn:Hc.
  - simpl. unfold urlSafe at 1. now rewrite Hc, IH.
  - now rewrite allChars_app, escape_safe, IH.
Qed.

Lemma googleSearchUrl_notLt (courseName : string) :
  allChars notLt (googleSearchUrl courseName) = true.
Proof.
  unfold googleSearchUrl. rewrite allChars_app.
  apply andb_true_intro. split; [reflexivity|].
  eapply allChars_impl; [exact urlSafe_notLt | apply encodeURIComponent_safe].
Qed.

(** X4. The query that the search URL carries is percent-encoded: it
    holds unreserved characters and percent signs only (so no space,
    ampersand, hash, quote or angle bracket of the course name gets
    through), a text of unreserved characters is passed as it is, and
    the URL is the fixed endpoint followed by that query. *)
Theorem X4_search_url_encoded (courseName : string) :
  allChars urlSafe (encodeURIComponent courseName) = true /\
  (allChars unreserved courseName = true ->
   encodeURIComponent courseName = courseName) /\
  exists query : string,
    googleSearchUrl courseName =
      ("https://www.google.com/search?q=" ++ query)%string /\
    allChars urlSafe query = true /\
    allChars notLt (googleSearchUrl courseName) = true.
Proof.
  split; [apply encodeURIComponent_safe|]. split.
  - induction courseName as [|c s IH]; simpl; [reflexivity|].
    intros H. apply andb_prop in H as [-> Hs]. now rewrite IH.
  - eexists. split; [reflexivity|].
    split; [apply encodeURIComponent_safe | apply googleSearchUrl_notLt].
Qed.

Lemma X4_witness :
  encodeURIComponent "Pebble-Creek_(North)" = "Pebble-Creek_(North)".
Proof.
  exact (proj1 (proj2 (X4_search_url_encoded "Pebble-Creek_(North)")) eq_refl).
Defined.

(** ** [browse] in every world *)

Section BrowseAlways.

Variable w : World.

Ltac branch :=
  eexists _, _, _; split; [reflexivity|]; simpl;
  split; [rewrite <- ?app_assoc; reflexivity|];
  split; [reflexivity|];
  unfold launchCalls, sessions, closeCalls; simpl; repeat split; lia.

(** One round of the loop, whatever rejects: it returns, issues one
    launch, adds one entry or two, and closes at most the session it
    launched. *)
Lemma browse_url_always (url : string) (rh : bool) (s : State) :
  exists (evs : list Event) (rs : list Response) (s' : State),
    Server.browse_url w url rh s = (Ret tt, s') /\
    st_log s' = st_log s ++ evs /\
    st_responses s' = st_responses s ++ rs /\
    1 <= length rs <= 2 /\
    launchCalls evs = 1 /\
    closeCalls evs <= sessions evs <= 1.
Proof.
  unfold Server.browse_url, launch, newPage, goto, waitForSelector,
    content, evalAll, closeBrowser, call, emit, setPage, setResponses.
  unfold try_catch, bind, ret, throw, get, modify; simpl.
  destruct (w_fault w (st_tick s) OpLaunch); simpl; [branch|].
  destruct (w_fault w (S (st_tick s)) _); simpl; [branch|].
  destruct (w_fault w (S (S (st_tick s))) _); simpl; [branch|].
  destruct (w_fault w (S (S (S (st_tick s)))) _); simpl; [branch|].
  destruct (present Server.sel_body false _); simpl; [|branch].
  destruct rh; simpl;
    (destruct (w_fault w (S (S (S (S (st_tick s))))) _); simpl; [branch|]);
    (destruct (w_fault w (S (S (S (S (S (st_tick s)))))) _); simpl);
    try branch;
    (eexists _, [_; _], _; split; [reflexivity|]; simpl;
     split; [rewrite <- ?app_assoc; reflexivity|];
     split; [rewrite <- ?app_assoc; reflexivity|];
     unfold launchCalls, sessions, closeCalls; simpl; repeat split; lia).
Qed.

Lemma count_app {A} (f : A -> bool) (l1 l2 : list A) :
  length (filter f (l1 ++ l2)) = length (filter f l1) + length (filter f l2).
Proof. now rewrite filter_app, length_app. Qed.

Lemma browse_loop_always (urls : list string) (rh : bool) (s : State) :
  exists (evs : list Event) (rs : list Response) (s' : State),
    Server.browse_loop w urls rh s = (Ret tt, s') /\
    st_log s' = st_log s ++ evs /\
    st_responses s' = st_responses s ++ rs /\
    length urls <= length rs <= 2 * length urls /\
    launchCalls evs = length urls /\
    closeCalls evs <= sessions evs <= length urls.
Proof.
  revert s. induction urls as [|url urls IH]; intros s; simpl.
  - exists [], [], s. rewrite !app_nil_r. simpl.
    repeat split; auto.
  - destruct (browse_url_always url rh s)
      as (e1 & r1 & s1 & Hrun1 & Hlog1 & Hres1 & Hn1 & Hl1 & Hc1).
    destruct (IH s1)
      as (e2 & r2 & s2 & Hrun2 & Hlog2 & Hres2 & Hn2 & Hl2 & Hc2).
    exists (e1 ++ e2), (r1 ++ r2), s2.
    unfold bind. rewrite Hrun1, Hrun2.
    unfold launchCalls, sessions, closeCalls in *.
    rewrite !count_app, length_app.
    repeat split; try lia.
    + now rewrite Hlog2, Hlog1, app_assoc.
    + now rewrite Hres2, Hres1, app_assoc.
Qed.

(** X5. [browse] always returns, whatever rejects: it never throws, it
    yields at least one entry per URL and at most two, it calls
    [puppeteer.launch] exactly once per URL, and it never calls
    [browser.close] more often than it launched sessions.  For an empty
    list it returns the empty array without any call. *)
Theorem X5_browse_always_returns (urls : list string) (rh : bool) (s : State) :
  exists (evs : list Event) (rs : list Response) (s' : State),
    Server.browse w urls rh s = (Ret rs, s') /\
    st_log s' = st_log s ++ evs /\
    length urls <= length rs <= 2 * length urls /\
    launchCalls evs = length urls /\
    closeCalls evs <= sessions evs <= length urls /\
    (urls = [] -> rs = [] /\ evs = []).
Proof.
  unfold Server.browse, setResponses.
  unfold bind, ret, get, modify; simpl.
  match goal with
  | |- context [Server.browse_loop w urls rh ?s0] =>
      destruct (browse_loop_always urls rh s0)
        as (evs & rs & s' & Hrun & Hlog & Hres & Hn & Hl & Hc)
  end.
  rewrite Hrun. simpl in *. exists evs, rs, s'. rewrite Hres.
  split; [reflexivity|]. split; [assumption|]. split; [lia|].
  split; [assumption|]. split; [assumption|].
  intros ->. simpl in Hrun. injection Hrun as <-.
  simpl in Hn, Hlog. split.
  - destruct rs; [reflexivity | simpl in Hn; lia].
  - rewrite <- (app_nil_r (st_log s)) in Hlog at 1.
    now apply app_inv_head in Hlog.
Qed.

End BrowseAlways.

Lemma X5_witness :
  exists (evs : list Event) (rs : list Response) (s' : State),
    Server.browse stuckClose [] true init = (Ret rs, s') /\
    rs = [] /\ evs = [].
Proof.
  destruct (X5_browse_always_returns stuckClose [] true init)
    as (evs & rs & s' & Hrun & _ & _ & _ & _ & Hnil).
  destruct (Hnil eq_refl) as [-> ->].
  now exists [], [], s'.
Defined.

(** ** [browse] when every step succeeds *)

(** X7. When no call rejects and every page has a body, [browse]
    works through the URLs one after the other: its log is one block
    per URL, in the order of the URLs, each block launching a session,
    loading that URL and closing the same session before the next block
    starts; the result is the content (or the links) of each page, in
    the order of the URLs. *)
Theorem X7_browse_sequential
        (w : World) (urls : list string) (rh : bool) (s : State) :
  noFaultFrom w (st_tick s) ->
  Forall (fun url => present Server.sel_body false
                       (pc_document (w_site w url)) = true) urls ->
  exists s',
    Server.browse w urls rh s = (Ret (map (pageAnswer w rh) urls), s') /\
    st_log s' = st_log s ++ transcript rh (st_tick s) urls /\
    st_tick s' = 6 * length urls + st_tick s.
Proof.
  intros Hnf Hbody.
  assert (Hloop : forall (us : list string) (s0 : State),
             noFaultFrom w (st_tick s0) ->
             Forall (fun url => present Server.sel_body false
                                  (pc_document (w_site w url)) = true) us ->
             exists s',
               Server.browse_loop w us rh s0 = (Ret tt, s') /\
               st_responses s' = st_responses s0 ++ map (pageAnswer w rh) us /\
               st_log s' = st_log s0 ++ transcript rh (st_tick s0) us /\
               st_tick s' = 6 * length us + st_tick s0).
  { induction us as [|u us IH]; intros s0 Hnf0 Hb.
    - exists s0. simpl. now rewrite !app_nil_r.
    - inversion Hb as [|? ? Hu Hus]; subst.
      cbn [Server.browse_loop]. unfold bind at 1.
      assert (Hone : exists s1,
                 Server.browse_url w u rh s0 = (Ret tt, s1) /\
                 st_responses s1 = st_responses s0 ++ [pageAnswer w rh u] /\
                 st_log s1 = st_log s0 ++ transcript rh (st_tick s0) [u] /\
                 st_tick s1 = 6 + st_tick s0).
      { unfold Server.browse_url, launch, newPage, goto, waitForSelector,
          content, evalAll, closeBrowser, call, emit, setPage, setResponses.
        unfold try_catch, bind, ret, throw, get, modify; simpl.
        nofault Hnf0. rewrite Hu. simpl.
        destruct rh; simpl; nofault Hnf0;
          (eexists; split; [reflexivity|]; simpl;
           repeat split; now rewrite <- ?app_assoc). }
      destruct Hone as (s1 & Hrun1 & Hres1 & Hlog1 & Htick1).
      rewrite Hrun1.
      destruct (IH s1) as (s' & Hrun & Hres & Hlog & Htick); auto.
      { eapply noFaultFrom_le; [exact Hnf0 | lia]. }
      exists s'. split; [exact Hrun|]. split; [|split].
      + rewrite Hres, Hres1. now rewrite <- app_assoc.
      + rewrite Hlog, Hlog1, Htick1. simpl. now rewrite <- app_assoc.
      + rewrite Htick, Htick1. simpl. lia. }
  unfold Server.browse, setResponses.
  unfold bind, ret, get, modify; simpl.
  match goal with
  | |- context [Server.browse_loop w urls rh ?s0] =>
      destruct (Hloop urls s0 Hnf Hbody) as (s' & Hrun & Hres & Hlog & Htick)
  end.
  rewrite Hrun. simpl in *. exists s'. now rewrite Hres.
Qed.

Lemma X7_witness :
  exists s',
    Server.browse calm ["https://a.example/"; "https://b.example/"] true init
      = (Ret [RString ""; RString ""], s') /\
    st_log s' =
      transcript true 0 ["https://a.example/"; "https://b.example/"] /\
    st_tick s' = 12.
Proof.
  apply (X7_browse_sequential calm
           ["https://a.example/"; "https://b.example/"] true init).
  - intros n op _. reflexivity.
  - repeat constructor.
Defined.

Lemma X6_witness :
  exists rs : list Response,
    fst (Server.browse flaky ["https://a.example/"; "https://b.example/"]
           false init) = Ret rs /\
    length rs = 2 /\
    Visits flaky false 0 ["https://a.example/"; "https://b.example/"] rs.
Proof.
  apply (browse_one_result_per_url flaky).
  intros n b. reflexivity.
Defined.

(** ** The boundary of the tools *)

Section ToolBoundary.

Variable w : World.

Lemma requireAgent_present (msg : string) :
  w_agent w = true -> succeeds (requireAgent w msg).
Proof. unfold requireAgent. intros ->. apply succeeds_ret. Qed.

Lemma str_succeeds (m : M State string) : succeeds m -> succeeds (str m).
Proof.
  intros H. unfold str. apply succeeds_bind; [exact H|].
  intros a. apply succeeds_ret.
Qed.

Lemma findTeeTimes_succeeds (courseName : string) (date : option string) :
  w_agent w = true -> succeeds (findTeeTimes w courseName date).
Proof.
  intros Ha. unfold findTeeTimes. rewrite Ha. simpl.
  apply succeeds_try_catch. intros e. apply succeeds_ret.
Qed.

Lemma findGolfCourseWebsite_succeeds (courseName : string) :
  w_agent w = true -> succeeds (findGolfCourseWebsite w courseName).
Proof.
  intros Ha. unfold findGolfCourseWebsite.
  apply succeeds_bind; [now apply requireAgent_present|]. intros _.
  apply succeeds_try_catch. intros e. apply succeeds_ret.
Qed.

Lemma browseTool_succeeds (urls : list string) :
  w_agent w = true -> succeeds (browseTool w urls).
Proof.
  intros Ha. unfold browseTool.
  apply succeeds_bind; [now apply requireAgent_present|]. intros _.
  apply succeeds_try_catch. intros e. apply succeeds_ret.
Qed.

Lemma scheduleTask_succeeds (when : When) (description : string) :
  w_agent w = true -> succeeds (scheduleTask w when description).
Proof.
  intros Ha. unfold scheduleTask.
  apply succeeds_bind; [now apply requireAgent_present|]. intros _.
  destruct (whenInput when); [|apply succeeds_ret].
  apply succeeds_bind.
  - apply succeeds_try_catch. intros e. apply succeeds_ret.
  - intros [message|]; apply succeeds_ret.
Qed.

Lemma getScheduledTasks_succeeds :
  w_agent w = true -> succeeds (getScheduledTasks w).
Proof.
  intros Ha. unfold getScheduledTasks.
  apply succeeds_bind; [now apply requireAgent_present|]. intros _.
  destruct (w_getSchedules w) as [e|[[|t ts]|]]; apply succeeds_ret.
Qed.

Lemma cancelScheduledTask_succeeds (taskId : string) :
  w_agent w = true -> succeeds (cancelScheduledTask w taskId).
Proof.
  intros Ha. unfold cancelScheduledTask.
  apply succeeds_bind; [now apply requireAgent_present|]. intros _.
  destruct (w_cancelSchedule w taskId); apply succeeds_ret.
Qed.

(** X10. With an agent in the context, no tool of the registry lets
    an exception out: whatever the arguments are and whatever the
    browser or the scheduler rejects, every [execute] returns a result
    for the model.  (The errors of the browser, of [getSchedules] and
    of [cancelSchedule] are caught; the promise of [schedule] is not
    awaited, so its rejection is not thrown to the tool at all.) *)
Theorem X10_tools_return_with_agent
        (name : string) (t : Tool)
        (execute_t : parameters t -> M State ToolResult)
        (args : parameters t) (s : State) :
  w_agent w = true ->
  In (name, t) (tools w) ->
  execute t = Some execute_t ->
  exists result, fst (execute_t args s) = Ret result.
Proof.
  intros Ha Hin Hex. unfold tools in Hin. simpl in Hin.
  repeat (destruct Hin as [Hin|Hin];
          [ injection Hin as <- <-; simpl in *;
            first [ discriminate Hex | injection Hex as <- ] | ]);
    try contradiction.
  - apply str_succeeds. intros s0. now exists "10am".
  - apply str_succeeds. now apply scheduleTask_succeeds.
  - now apply getScheduledTasks_succeeds.
  - apply str_succeeds. now apply cancelScheduledTask_succeeds.
  - now apply browseTool_succeeds.
  - apply str_succeeds. now apply findGolfCourseWebsite_succeeds.
  - apply str_succeeds. now apply findTeeTimes_succeeds.
Qed.

(** X11. Without an agent in the context, every tool of the registry
    other than [getLocalTime] throws a configuration error at once: no
    call reaches the browser and nothing changes. *)
Theorem X11_tools_throw_without_agent
        (name : string) (t : Tool)
        (execute_t : parameters t -> M State ToolResult)
        (args : parameters t) (s : State) :
  w_agent w = false ->
  In (name, t) (tools w) ->
  execute t = Some execute_t ->
  name <> "getLocalTime" ->
  exists msg,
    execute_t args s = (Throw msg, s) /\
    (msg = "Error: No agent found" \/
     msg = "Error: No agent with a browse method found").
Proof.
  intros Ha Hin Hex Hname. unfold tools in Hin. simpl in Hin.
  repeat (destruct Hin as [Hin|Hin];
          [ injection Hin as <- <-; simpl in *;
            first [ discriminate Hex | injection Hex as <- ] | ]);
    try contradiction;
    unfold str, scheduleTask, getScheduledTasks, cancelScheduledTask,
      browseTool, findGolfCourseWebsite, findTeeTimes, requireAgent, bind,
      throw;
    rewrite Ha; simpl; eauto.
Qed.

End ToolBoundary.

Lemma X10_witness :
  exists result,
    fst (str (findTeeTimes unreachable "Pebble Creek" None) init) = Ret result.
Proof.
  refine (X10_tools_return_with_agent unreachable "findTeeTimes"
            {| description := "Find the tee times page URL for a golf course, optionally for a specific date";
               parameters := (string * option string)%type;
               execute := Some (fun a => str (findTeeTimes unreachable (fst a) (snd a))) |}
            (fun a => str (findTeeTimes unreachable (fst a) (snd a)))
            ("Pebble Creek", None) init eq_refl _ eq_refl).
  unfold tools. simpl. do 7 right. left. reflexivity.
Defined.

Lemma X11_witness :
  exists msg,
    browseTool noAgent ["https://a.example/"] init = (Throw msg, init) /\
    (msg = "Error: No agent found" \/
     msg = "Error: No agent with a browse method found").
Proof.
  refine (X11_tools_throw_without_agent noAgent "browse"
            {| description := "Browse the web and extract structured data.";
               parameters := list string;
               execute := Some (browseTool noAgent) |}
            (browseTool noAgent) ["https://a.example/"] init
            eq_refl _ eq_refl _).
  - unfold tools. simpl. do 5 right. left. reflexivity.
  - discriminate.
Defined.

(** ** The two search tools *)

Lemma extractCourseUrl_notLt (s : string) :
  allChars notLt s = true -> extractCourseUrl s = None.
Proof.
  induction s as [|c s IH]; simpl; [reflexivity|].
  intros H. apply andb_prop in H as [Hc Hs].
  now rewrite resultLinkAt_notLt, IH.
Qed.

(** X12. Both search tools resolve a course alike: when the search
    goes through and its first result link is [courseUrl],
    [findGolfCourseWebsite] returns [courseUrl], and [courseUrl] is the
    page that [findTeeTimes] opens and searches for an entry point. *)
Theorem X12_search_tools_agree
        (w : World) (courseName courseUrl : string)
        (date : option string) (s : State) :
  noFaultFrom w (st_tick s) ->
  resolvesTo w courseName courseUrl ->
  fst (findGolfCourseWebsite w courseName s) = Ret courseUrl /\
  exists (p : nat) (before : list Event) (s1 : State),
    findTeeTimes w courseName date s = landed w date s1 /\
    st_page s1 = w_site w courseUrl /\
    st_log s1 = st_log s ++ before ++
                [Call (OpNewPage None); PageOpened None p;
                 Call (OpGoto courseUrl)].
Proof.
  intros Hnf Hres. split.
  - destruct Hres as (Hagent & Hbrowser & Hbody & Hurl).
    destruct (browse_html_ok w (googleSearchUrl courseName) s Hnf Hbody)
      as (evs & s0 & Hrun & _).
    unfold findGolfCourseWebsite, requireAgent. rewrite Hagent, Hbrowser.
    simpl. unfold try_catch, bind, ret. simpl. rewrite Hrun. simpl.
    destruct (pc_html (w_site w (googleSearchUrl courseName)))
      as [|c html] eqn:Hhtml; [discriminate|].
    rewrite Hurl, (extractCourseUrl_nonempty _ _ Hurl). reflexivity.
  - destruct (findTeeTimes_lands w courseName courseUrl date s Hnf Hres)
      as (p & before & s1 & Hrun & Hpage & _ & Hlog & _).
    now exists p, before, s1.
Qed.

Lemma X12_witness :
  fst (findGolfCourseWebsite worldC "Pebble Creek" init) = Ret courseSite.
Proof.
  refine (proj1 (X12_search_tools_agree worldC "Pebble Creek" courseSite
                   None init _ _)).
  - intros n op _. reflexivity.
  - repeat split; reflexivity.
Defined.

(** X13. A failed search is not reported as an error.  When [browse]
    answers the search URL with an error entry (and the error text
    holds no [<]), both search tools return the plain message that no
    URL was found: the error string is taken for the page and searched
    for a result link. *)
Theorem X13_search_error_masked
        (w : World) (courseName e : string) (date : option string)
        (rest : list Response) (s : State) :
  w_agent w = true ->
  w_MYBROWSER w = true ->
  fst (Server.browse w [googleSearchUrl courseName] true s) =
    Ret (RString ("Error browsing URL " ++ googleSearchUrl courseName
                  ++ ": " ++ e)%string :: rest) ->
  allChars notLt e = true ->
  fst (findGolfCourseWebsite w courseName s) = Ret noUrlFound /\
  fst (findTeeTimes w courseName date s) = Ret noUrlFound.
Proof.
  intros Hagent Hbrowser Hrun He.
  remember ("Error browsing URL " ++ googleSearchUrl courseName
            ++ ": " ++ e)%string as msg eqn:Emsg.
  assert (Hnone : extractCourseUrl msg = None).
  { subst msg. apply extractCourseUrl_notLt.
    rewrite !allChars_app, googleSearchUrl_notLt, He. reflexivity. }
  assert (Hne : msg <> "") by (subst msg; discriminate).
  clear Emsg.
  destruct (Server.browse w [googleSearchUrl courseName] true s)
    as [r s0] eqn:Hb. simpl in Hrun. subst r.
  destruct msg as [|c msg]; [contradiction|].
  split.
  - unfold findGolfCourseWebsite, requireAgent. rewrite Hagent, Hbrowser.
    cbn [negb]. unfold try_catch, bind, ret. rewrite Hb.
    cbn [hd_error]. cbv beta iota. rewrite Hnone. reflexivity.
  - unfold findTeeTimes. rewrite Hagent, Hbrowser.
    cbn [negb]. unfold try_catch, bind, ret. rewrite Hb.
    cbn [hd_error]. cbv beta iota. rewrite Hnone. reflexivity.
Qed.

Lemma X13_witness :
  fst (findGolfCourseWebsite unreachable "Pebble Creek" init) = Ret noUrlFound /\
  fst (findTeeTimes unreachable "Pebble Creek" None init) = Ret noUrlFound.
Proof.
  apply (X13_search_error_masked unreachable "Pebble Creek"
           "Error: net::ERR_NAME_NOT_RESOLVED" None [] init);
    reflexivity.
Defined.

(** ** The direct navigation *)

Lemma clickFree_refl (s : State) : clickFree s s.
Proof. exists []. now rewrite app_nil_r. Qed.

Lemma clickFree_trans (s1 s2 s3 : State) :
  clickFree s1 s2 -> clickFree s2 s3 -> clickFree s1 s3.
Proof.
  intros (e1 & Hl1 & Hb1) (e2 & Hl2 & Hb2). exists (e1 ++ e2). split.
  - now rewrite Hl2, Hl1, app_assoc.
  - now apply Forall_app.
Qed.

Section ClickFree.

Variable w : World.

Lemma call_clickFree (op : Op) : keeps clickFree (call w op).
Proof.
  intros s. unfold call.
  destruct (w_fault w (st_tick s) op); simpl;
    (exists [Call op]; split; [reflexivity | now constructor]).
Qed.

Lemma emit_clickFree (e : Event) :
  noClick e = true -> keeps clickFree (emit e).
Proof.
  intros He s. exists [e]. split; [reflexivity | now constructor].
Qed.

Lemma modify_clickFree (f : State -> State) :
  (forall s, st_log (f s) = st_log s) -> keeps clickFree (modify f).
Proof.
  intros Hf s. exists []. simpl. now rewrite Hf, app_nil_r.
Qed.

Ltac clickless :=
  repeat
    (intros;
     first
       [ apply keeps_ret; exact clickFree_refl
       | apply keeps_throw; exact clickFree_refl
       | apply keeps_get; exact clickFree_refl
       | apply call_clickFree
       | apply emit_clickFree; reflexivity
       | apply modify_clickFree; reflexivity
       | assumption
       | match goal with IH : forall _, keeps _ _ |- _ => apply IH end
       | apply keeps_bind; [exact clickFree_trans | | ]
       | apply keeps_try_catch; [exact clickFree_trans | | ]
       | match goal with
         | |- keeps _ (if ?b then _ else _) => destruct b
         | |- keeps _ (match ?x with _ => _ end) => destruct x
         end ]).

Lemma setDate_clickFree sels d : keeps clickFree (setDate w sels d).
Proof.
  induction sels as [|sel sels IH]; simpl; clickless.
Qed.

Lemma report_clickFree date : keeps clickFree (report w date).
Proof.
  unfold report, primeDate. clickless; apply setDate_clickFree.
Qed.

Lemma release_clickFree : keeps clickFree (release w).
Proof. unfold release. clickless. Qed.

End ClickFree.

Lemma link_isTag (doc : Document) (el : Node) :
  In el (querySelectorAll sel_a doc) -> isTag "a" el = true.
Proof.
  unfold querySelectorAll. intros H. apply filter_In in H as [_ H].
  unfold matches, sel_a in H. simpl in H.
  now rewrite andb_true_r, orb_false_r in H.
Qed.

(** X14. A matching link with an [href] is followed, not clicked.  With
    the search resolved and no call rejecting: when the first link of
    the landing page is visible (what the wait for [a] looks at) and
    the first link whose text matches the pattern has a non-empty
    [href], [findTeeTimes] navigates to that [href] and returns the URL
    of the page it loads, as the date block leaves that page (without a
    date: the page itself), whatever buttons the page has and wherever
    they stand; nothing is clicked. *)
Theorem X14_link_followed_directly
        (w : World) (courseName courseUrl : string)
        (date : option string) (s : State)
        (pre post : list Node) (el : Node) :
  noFaultFrom w (st_tick s) ->
  resolvesTo w courseName courseUrl ->
  let doc := pc_document (w_site w courseUrl) in
  present sel_a true doc = true ->
  querySelectorAll sel_a doc = pre ++ el :: post ->
  Forall nonMatching pre ->
  regex_test (textContent el) = true ->
  href el <> "" ->
  let run := findTeeTimes w courseName date s in
  fst run = Ret (pc_url (dated w date (w_site w (href el)))) /\
  exists evs,
    st_log (snd run) = st_log s ++ evs /\
    In (Call (OpGoto (href el))) evs /\
    Forall (fun e => noClick e = true) evs.
Proof.
  intros Hnf Hres doc Hvis Hels Hpre Hel Hhref run.
  destruct (findTeeTimes_lands w courseName courseUrl date s Hnf Hres)
    as (p & before & s1 & Hrun & Hpage & Hvar & Hlog & Hbefore & Hnf1).
  assert (Hdoc : pc_document (st_page s1) = doc) by now rewrite Hpage.
  destruct (landed_run w date s1 p Hnf1 Hvar) as [Hfst Hsnd].
  assert (Htag : isTag "a" el = true).
  { apply (link_isTag doc). rewrite Hels. apply in_elt. }
  assert (Hentry : entryPoint sel_a doc = Some (href el)).
  { unfold entryPoint. rewrite Hels, scanElements_skip by assumption.
    simpl. now rewrite Hel, Htag. }
  assert (Hne : String.eqb (href el) "" = false)
    by now apply String.eqb_neq.
  assert (Hfollow : exists s3 s',
             follow w date s1 = report w date s3 /\
             st_page s3 = w_site w (href el) /\
             st_log s3 = st_log s1 ++
               [ Call (OpWaitForSelector sel_a (Some 5000%N) true);
                 Call OpEvaluate; Call (OpGoto (href el)) ] /\
             report w date s3 =
               (Ret (pc_url (dated w date (w_site w (href el)))), s')).
  { unfold follow, linkSelectors. cbn [locate].
    unfold waitForSelector, evaluate, goto, call, setPage.
    unfold try_catch, bind, ret, throw, get, modify. simpl.
    nofault Hnf1. rewrite Hdoc, Hvis. simpl. nofault Hnf1.
    rewrite Hdoc, Hentry. simpl.
    repeat first [ rewrite Hne | rewrite Hnf1 by (simpl; lia) | progress simpl ].
    match goal with
    | |- context [report w date ?s3] =>
        destruct (report_dated w date s3) as (s' & E);
        [ eapply noFaultFrom_le; [exact Hnf1 | simpl; lia] | ];
        exists s3, s'
    end.
    simpl in E. repeat split; auto. simpl. now rewrite <- !app_assoc. }
  destruct Hfollow as (s3 & s' & Hf & Hp3 & Hl3 & Hrep).
  destruct (report_clickFree w date s3) as (rest & Hrest & Hnc).
  rewrite Hrep in Hrest. simpl in Hrest.
  unfold run. rewrite Hrun, Hfst, Hsnd, Hf, Hrep. simpl.
  split; [reflexivity|].
  eexists. split; [|split].
  - rewrite Hrest, Hl3, Hlog. rewrite <- !app_assoc. reflexivity.
  - apply in_or_app. right. simpl. auto 10.
  - repeat (apply Forall_app; split); try (now repeat constructor); auto.
    eapply Forall_impl; [|exact Hbefore].
    intros e He. now apply andb_prop in He.
Qed.

Lemma X14_witness :
  fst (findTeeTimes worldA "Pebble Creek" (Some "2024-06-01") init)
    = Ret "https://pebblecreek-golf.example/tee-times".
Proof.
  refine (proj1 (X14_link_followed_directly worldA "Pebble Creek" courseSite
                   (Some "2024-06-01") init [about] [] book _ _ _ _ _ _ _)).
  - intros n op _. reflexivity.
  - repeat split; reflexivity.
  - reflexivity.
  - reflexivity.
  - repeat constructor.
  - reflexivity.
  - discriminate.
Defined.

(** ** The date block, whatever rejects *)

Section DateBlock.

Variable w : World.

Ltac gaveUp tries :=
  exists tries; eexists;
  split; [repeat (apply Forall_cons || apply Forall_nil); unfold attemptOf; auto|];
  split; [unfold waitFor; simpl; auto|];
  left; split; [reflexivity|];
  split; [simpl; rewrite <- ?app_assoc; reflexivity | reflexivity].







End DateBlock.



(** On a page whose listener navigates, the date reaches the result:
    the tool reports where the listener went. *)
Example date_reaches_the_result :
  fst (findTeeTimes worldRedirect "Pebble Creek" (Some "2024-06-01") init) =
    Ret "https://pebblecreek-golf.example/tee-times?date=2024-06-01" /\
  fst (findTeeTimes worldRedirect "Pebble Creek" None init) =
    Ret "https://pebblecreek-golf.example/tee-times".
Proof. split; vm_compute; reflexivity. Qed.

(** ** The transcript only grows *)

(** X15. The chat turn is append-only.  When the [try] block goes
    through, [this.messages] is left as it was and the reply is
    streamed over the reconciled messages; when it throws, in the
    reconciliation or in the first [streamText], exactly one assistant
    message that carries the error is appended; in both cases the
    transcript before is a prefix of the transcript after.  The
    scheduled task drops nothing either: the array that it hands to
    [saveMessages] is the transcript followed by exactly one user
    message, whatever that method of the library then does with it. *)
Theorem X15_transcript_append_only
        (w : Chat.World) (s : Chat.State)
        (newId description : string) (now : N) :
  let s' := snd (Chat.onChatMessage w s) in
  match tryError w s with
  | None =>
      Chat.messages s' = Chat.messages s /\
      fst (Chat.onChatMessage w s) = Ret tt
  | Some e =>
      Chat.messages s' = Chat.messages s ++ [Chat.errorMessage w e]
  end /\
  (exists added,
      Chat.messages s' = Chat.messages s ++ added /\ length added <= 1) /\
  forall saveMessages : list Chat.Message -> M Chat.State unit,
  exists m,
    Agent.executeTask saveMessages newId now description s =
      saveMessages (Chat.messages s ++ [m]) s /\
    Chat.role m = Chat.user /\
    Chat.content m = ("Running scheduled task: " ++ description)%string.
Proof.
  intros s'.
  assert (H : match tryError w s with
              | None =>
                  Chat.messages s' = Chat.messages s /\
                  fst (Chat.onChatMessage w s) = Ret tt
              | Some e =>
                  Chat.messages s' = Chat.messages s ++ [Chat.errorMessage w e]
              end).
  { unfold s', tryError, Chat.onChatMessage, Chat.streamText, Chat.push,
      firstStream.
    unfold try_catch, bind, get, modify, throw. simpl.
    destruct (Chat.processToolCalls w (Chat.messages s)) as [ps|e]; simpl.
    - destruct (Chat.streamFault w _) as [e|]; simpl; [|auto].
      destruct (Chat.streamFault w _); reflexivity.
    - destruct (Chat.streamFault w _); reflexivity. }
  split; [exact H|]. split.
  - destruct (tryError w s) as [e|].
    + exists [Chat.errorMessage w e]. split; [exact H | simpl; lia].
    + exists []. rewrite app_nil_r. split; [apply H | simpl; lia].
  - intros saveMessages. eexists. repeat split.
Qed.

(** ** The worker entry point *)

Lemma lookup_remove (k m : string) (h : Http.Headers) :
  k <> m -> Dom.lookup k (Http.remove m h) = Dom.lookup k h.
Proof.
  intros Hkm. induction h as [|[k' v] h IH]; simpl; [reflexivity|].
  destruct (String.eqb_spec k' m) as [->|Hk'].
  - rewrite IH. apply String.eqb_neq in Hkm. now rewrite Hkm.
  - simpl. now rewrite IH.
Qed.

Lemma lookup_replace (k m v : string) (h : Http.Headers) :
  Dom.lookup k (Http.replace m v h) =
    if String.eqb k m then Some v else Dom.lookup k h.
Proof.
  induction h as [|[k' x] h IH]; simpl.
  - now destruct (String.eqb k m).
  - destruct (String.eqb_spec k' m) as [->|Hk']; simpl.
    + destruct (String.eqb_spec k m) as [->|Hkm]; [reflexivity|].
      now apply lookup_remove.
    + rewrite IH. destruct (String.eqb_spec k k') as [->|Hkk'].
      * apply String.eqb_neq in Hk'. now rewrite Hk'.
      * reflexivity.
Qed.

(** [headers.get] after [headers.set]. *)
Lemma get_set (n m v : string) (h : Http.Headers) :
  Http.get n (Http.set m v h) =
    if String.eqb (Str.toLowerCase n) (Str.toLowerCase m)
    then Some v else Http.get n h.
Proof. unfold Http.get, Http.set. apply lookup_replace. Qed.

Lemma includes_allowed (o : string) :
  Http.includes o = true -> Http.allowed (Some o) = true.
Proof.
  intros H. unfold Http.allowed. rewrite H, andb_true_r.
  apply negb_true_iff, String.eqb_neq. intros ->. discriminate H.
Qed.

(** The four headers that [withCORS] and the preflight answer set. *)
Lemma cors_headers (o : string) (h : Http.Headers) :
  let h' :=
    Http.set "Access-Control-Allow-Methods" "GET, POST, OPTIONS"
      (Http.set "Access-Control-Allow-Headers" "Content-Type, Authorization"
         (Http.set "Access-Control-Allow-Credentials" "true"
            (Http.set "Access-Control-Allow-Origin" o h))) in
  Http.get "Access-Control-Allow-Origin" h' = Some o /\
  Http.get "Access-Control-Allow-Credentials" h' = Some "true" /\
  Http.get "Access-Control-Allow-Headers" h' = Some "Content-Type, Authorization" /\
  Http.get "Access-Control-Allow-Methods" h' = Some "GET, POST, OPTIONS".
Proof. intros h'. unfold h'. rewrite !get_set. repeat split. Qed.

(** X16. A request from an origin of the allow-list is always answered
    with the four CORS headers, the first naming that origin: on the
    preflight, on the health check, on what the router answers (its own
    value of the header is overwritten), on the 404 and on the 500. *)
Theorem X16_allowed_origin_gets_cors
        (w : Http.World) (request : Http.Request) (o : string) :
  Http.origin request = Some o ->
  Http.includes o = true ->
  let h := Http.headers (Http.fetch w request) in
  Http.get "Access-Control-Allow-Origin" h = Some o /\
  Http.get "Access-Control-Allow-Credentials" h = Some "true" /\
  Http.get "Access-Control-Allow-Headers" h = Some "Content-Type, Authorization" /\
  Http.get "Access-Control-Allow-Methods" h = Some "GET, POST, OPTIONS".
Proof.
  intros Ho Hin h. pose proof (includes_allowed o Hin) as Hall.
  unfold h, Http.fetch, Http.route, Http.preflight, Http.withCORS.
  rewrite Ho, Hall.
  destruct (String.eqb (Http.method request) "OPTIONS");
    [apply cors_headers|].
  destruct (String.eqb (Http.pathname request) "/check-open-ai-key");
    [apply cors_headers|].
  destruct (Http.routeAgentRequest w request) as [[r|]|e];
    apply cors_headers.
Qed.

Lemma X16_witness :
  Http.get "access-control-allow-origin"
    (Http.headers (Http.fetch brokenRouter
                     (chatRequest "POST" (Some "https://mulls.io"))))
  = Some "https://mulls.io".
Proof.
  exact (proj1 (X16_allowed_origin_gets_cors brokenRouter
                  (chatRequest "POST" (Some "https://mulls.io"))
                  "https://mulls.io" eq_refl eq_refl)).
Defined.

(** X17. An origin outside the allow-list is ignored: when the router
    answers alike, the request is answered exactly as the same request
    without an [Origin] header, so no header names the origin. *)
Theorem X17_foreign_origin_ignored
        (w : Http.World) (request : Http.Request) :
  Http.allowed (Http.origin request) = false ->
  Http.routeAgentRequest w request =
    Http.routeAgentRequest w (withoutOrigin request) ->
  Http.fetch w request = Http.fetch w (withoutOrigin request).
Proof.
  intros Hall Hroute.
  unfold Http.fetch, Http.route, Http.preflight, Http.withCORS.
  rewrite <- Hroute. simpl. rewrite Hall. reflexivity.
Qed.

Lemma X17_witness :
  Http.fetch emptyRouter (chatRequest "GET" (Some "https://evil.example")) =
  Http.fetch emptyRouter (chatRequest "GET" None).
Proof.
  exact (X17_foreign_origin_ignored emptyRouter
           (chatRequest "GET" (Some "https://evil.example"))
           eq_refl eq_refl).
Defined.

(** X18. A preflight request is answered at once: status 204 without a
    body, whatever the path, the router and the key are; the answer
    depends on the [Origin] header alone, and its
    [Access-Control-Allow-Origin] is empty unless the origin is
    allowed. *)
Theorem X18_preflight
        (w w' : Http.World) (request request' : Http.Request) :
  Http.method request = "OPTIONS" ->
  Http.method request' = "OPTIONS" ->
  Http.origin request = Http.origin request' ->
  Http.fetch w request = Http.fetch w' request' /\
  Http.status (Http.fetch w request) = 204%N /\
  Http.body (Http.fetch w request) = None /\
  (Http.allowed (Http.origin request) = false ->
   Http.get "Access-Control-Allow-Origin"
     (Http.headers (Http.fetch w request)) = Some "").
Proof.
  intros Hm Hm' Ho. unfold Http.fetch. rewrite Hm, Hm', Ho. simpl.
  repeat split. intros Hall. rewrite Hall.
  apply (cors_headers "" []).
Qed.

Lemma X18_witness :
  Http.fetch brokenRouter (chatRequest "OPTIONS" (Some "https://evil.example"))
  = Http.fetch emptyRouter
      {| Http.method := "OPTIONS"; Http.pathname := "/check-open-ai-key";
         Http.origin := Some "https://evil.example" |}.
Proof.
  exact (proj1 (X18_preflight brokenRouter emptyRouter
                  (chatRequest "OPTIONS" (Some "https://evil.example"))
                  {| Http.method := "OPTIONS";
                     Http.pathname := "/check-open-ai-key";
                     Http.origin := Some "https://evil.example" |}
                  eq_refl eq_refl eq_refl)).
Defined.

Lemma withCORS_keeps (r : Http.Response) (o : option string) :
  Http.status (Http.withCORS r o) = Http.status r /\
  Http.body (Http.withCORS r o) = Http.body r.
Proof. unfold Http.withCORS. now destruct (Http.allowed o). Qed.

(** X19. Apart from the preflight, the status and the body of the
    answer do not depend on the origin: the health check answers 200
    with the presence of the key and never asks the router; otherwise
    the answer of the router is passed on, a missing answer becomes the
    404 and an exception of the router the 500, each with its JSON
    body. *)
Theorem X19_status_and_body
        (w : Http.World) (request : Http.Request) :
  Http.method request <> "OPTIONS" ->
  let r := Http.fetch w request in
  if String.eqb (Http.pathname request) "/check-open-ai-key" then
    Http.status r = 200%N /\
    Http.body r =
      Some (Http.successBody (Tools.truthy (Http.OPENAI_API_KEY w)))
  else
    match Http.routeAgentRequest w request with
    | Ret (Some response) =>
        Http.status r = Http.status response /\
        Http.body r = Http.body response
    | Ret None =>
        Http.status r = 404%N /\
        Http.body r = Some (Http.errorBody "Not found")
    | Throw _ =>
        Http.status r = 500%N /\
        Http.body r = Some (Http.errorBody "Internal Server Error")
    end.
Proof.
  intros Hm r. apply String.eqb_neq in Hm.
  unfold r, Http.fetch, Http.route. rewrite Hm.
  destruct (String.eqb (Http.pathname request) "/check-open-ai-key");
    [apply withCORS_keeps|].
  destruct (Http.routeAgentRequest w request) as [[response|]|e];
    apply withCORS_keeps.
Qed.

Lemma X19_witness :
  Http.status (Http.fetch brokenRouter (chatRequest "POST" None)) = 500%N /\
  Http.body (Http.fetch brokenRouter (chatRequest "POST" None)) =
    Some (Http.errorBody "Internal Server Error").
Proof.
  refine (X19_status_and_body brokenRouter (chatRequest "POST" None) _).
  discriminate.
Defined.

(** ** The date is written at most once *)

Section WrittenOnce.

Variable w : World.

Ltac gaveUp :=
  eexists _, false, _; split; [reflexivity|]; simpl;
  split; [rewrite <- ?app_assoc; reflexivity|];
  repeat constructor.

(** One round of the date loop either gives up without writing to the
    page, or writes the date to one [input] element and dispatches both
    events on it. *)
Lemma trySelector_writes (sel : Selector) (d : string) (s : State) :
  exists (evs : list Event) (dateSet : bool) (s' : State),
    trySelector w sel d s = (Ret dateSet, s') /\
    st_log s' = st_log s ++ evs /\
    if dateSet then
      exists (calls : list Event) (el : Node),
        evs = calls ++ [SetValue el d; Dispatch el "input" true;
                        Dispatch el "change" true] /\
        Forall (fun e => written e = false) calls /\
        isInput el = true
    else Forall (fun e => written e = false) evs.
Proof.
  unfold trySelector, waitForSelector, eval_, call, emit.
  unfold try_catch, bind, ret, throw, get, modify; simpl.
  destruct (w_fault w (st_tick s) _); simpl; [gaveUp|].
  destruct (present sel true (pc_document (st_page s))); simpl; [|gaveUp].
  destruct (w_fault w (S (st_tick s)) _); simpl; [gaveUp|].
  destruct (querySelector sel (pc_document (st_page s))) as [el|] eqn:Hel;
    simpl; [|gaveUp].
  destruct (isInput el) eqn:Hin; simpl; [|gaveUp].
  destruct (w_fault w (S (S (st_tick s))) _); simpl; [gaveUp|].
  rewrite Hel. simpl.
  eexists _, true, _. split; [reflexivity|]. simpl.
  split; [rewrite <- !app_assoc; reflexivity|].
  exists [ Call (OpWaitForSelector sel (Some 3000%N) true);
           Call (OpEval sel); Call (OpEval sel) ], el.
  repeat split; auto; repeat constructor.
Qed.

(** X20. The date loop writes to the page at most once, whatever the
    strategies are and whatever rejects.  It ends with [dateSet] true
    exactly when it has set the value of one [input] element and
    dispatched [input] and [change] on it, these being the last three
    events and the only writes; with [dateSet] false nothing on the page
    was written or clicked. *)
Theorem X20_date_written_at_most_once
        (sels : list Selector) (d : string) (s : State) :
  exists (evs : list Event) (dateSet : bool) (s' : State),
    setDate w sels d s = (Ret dateSet, s') /\
    st_log s' = st_log s ++ evs /\
    if dateSet then
      exists (calls : list Event) (el : Node),
        evs = calls ++ [SetValue el d; Dispatch el "input" true;
                        Dispatch el "change" true] /\
        Forall (fun e => written e = false) calls /\
        isInput el = true
    else Forall (fun e => written e = false) evs.
Proof.
  revert s. induction sels as [|sel sels IH]; intros s.
  - exists [], false, s. simpl. rewrite app_nil_r. repeat split. constructor.
  - destruct (trySelector_writes sel d s) as (e1 & b1 & s1 & Hrun1 & Hlog1 & H1).
    cbn [setDate]. unfold bind. rewrite Hrun1.
    destruct b1.
    + exists e1, true, s1. repeat split; assumption.
    + destruct (IH s1) as (e2 & b2 & s2 & Hrun2 & Hlog2 & H2).
      exists (e1 ++ e2), b2, s2. rewrite Hrun2.
      split; [reflexivity|]. split; [now rewrite Hlog2, Hlog1, app_assoc|].
      destruct b2.
      * destruct H2 as (calls & el & -> & Hc & Hin).
        exists (e1 ++ calls), el. rewrite app_assoc.
        repeat split; auto. now apply Forall_app.
      * now apply Forall_app.
Qed.

End WrittenOnce.


(** ** More paths of [findTeeTimes] *)

(** X21. The search for an href only looks at a category of elements
    when the wait for it ends, that is when its first element is
    visible, but the click fallback does not ask for visibility.  With
    the search resolved and no call rejecting: when neither the first
    link nor the first button of the landing page is visible, no href
    is read, and the first link or button whose text matches the
    pattern is clicked, hidden or not and whatever its [href] is; the
    result is the URL the click leads to (that of the page reached, as
    the date block leaves it: without a date, the page itself), or the
    reported time-out. *)
Theorem X21_hidden_entry_point_clicked
        (w : World) (courseName courseUrl : string)
        (date : option string) (s : State)
        (pre post : list Node) (el : Node) :
  noFaultFrom w (st_tick s) ->
  resolvesTo w courseName courseUrl ->
  let doc := pc_document (w_site w courseUrl) in
  present sel_a true doc = false ->
  present sel_button true doc = false ->
  querySelectorAll sel_a_button doc = pre ++ el :: post ->
  Forall nonMatching pre ->
  regex_test (textContent el) = true ->
  let run := findTeeTimes w courseName date s in
  fst run =
    match w_click w el with
    | Some u => Ret (pc_url (dated w date (w_site w u)))
    | None =>
        Ret ("Error finding tee times: " ++
             w_timeoutError w (OpWaitForNavigation 10000%N))%string
    end /\
  exists before rest : list Event,
    st_log (snd run) =
      st_log s ++ before ++
      [ Call (OpWaitForSelector sel_a (Some 5000%N) true);
        Call (OpWaitForSelector sel_button (Some 5000%N) true);
        Call OpEvaluate; Click el; Call (OpWaitForNavigation 10000%N) ]
      ++ rest /\
    Forall (fun e => noClick e = true) before.
Proof.
  intros Hnf Hres doc Ha Hb Hels Hpre Hel run.
  destruct (findTeeTimes_lands w courseName courseUrl date s Hnf Hres)
    as (p & before & s1 & Hrun & Hpage & Hvar & Hlog & Hbefore & Hnf1).
  assert (Hdoc : pc_document (st_page s1) = doc) by now rewrite Hpage.
  destruct (landed_run w date s1 p Hnf1 Hvar) as [Hfst Hsnd].
  assert (Hfollow : exists rest,
             fst (follow w date s1) =
               match w_click w el with
               | Some u => Ret (pc_url (dated w date (w_site w u)))
               | None => Throw (w_timeoutError w (OpWaitForNavigation 10000%N))
               end /\
             st_log (snd (follow w date s1)) =
               st_log s1 ++
               [ Call (OpWaitForSelector sel_a (Some 5000%N) true);
                 Call (OpWaitForSelector sel_button (Some 5000%N) true);
                 Call OpEvaluate; Click el;
                 Call (OpWaitForNavigation 10000%N) ] ++ rest).
  { unfold follow, linkSelectors. cbn [locate].
    unfold waitForSelector, evaluate, waitForNavigation, call.
    unfold try_catch, bind, ret, throw, get, modify. simpl.
    nofault Hnf1. rewrite Hdoc, Ha. simpl. nofault Hnf1.
    rewrite Hdoc, Hb. simpl. nofault Hnf1.
    rewrite Hdoc, Hels, clickFirst_first by assumption. simpl.
    nofault Hnf1.
    destruct (w_click w el) as [u|]; simpl.
    - match goal with
      | |- context [report w date ?s3] =>
          destruct (report_dated w date s3) as (s' & E);
          [ eapply noFaultFrom_le; [exact Hnf1 | simpl; lia] | ];
          destruct (report_quiet w date s3) as (_ & _ & rest & Hrest & _)
      end.
      rewrite E in *. simpl in *. exists rest. split; [reflexivity|].
      rewrite Hrest. now rewrite <- !app_assoc.
    - exists []. split; [reflexivity|]. now rewrite <- !app_assoc. }
  destruct Hfollow as (rest & Hf & Hl).
  unfold run. rewrite Hrun, Hfst, Hsnd, Hf, Hl. split.
  - now destruct (w_click w el).
  - exists (before ++ [Call (OpNewPage None); PageOpened None p;
                       Call (OpGoto courseUrl)]),
           (rest ++ [Call (OpPageClose p)]).
    split.
    + rewrite Hlog. rewrite <- !app_assoc. reflexivity.
    + apply Forall_app. split; [|now repeat constructor].
      eapply Forall_impl; [|exact Hbefore].
      intros e He. now apply andb_prop in He.
Qed.

Lemma X21_witness :
  fst (findTeeTimes worldHidden "Pebble Creek" None init)
    = Ret "https://pebblecreek-golf.example/popup".
Proof.
  refine (proj1 (X21_hidden_entry_point_clicked worldHidden "Pebble Creek"
                   courseSite None init [] [] hiddenBook _ _ _ _ _ _ _)).
  - intros n op _. reflexivity.
  - repeat split; reflexivity.
  - reflexivity.
  - reflexivity.
  - reflexivity.
  - constructor.
  - reflexivity.
Defined.

(** X22. A course site that cannot be reached is reported, and the page
    is still closed.  When the search resolves to [courseUrl] and the
    navigation to it is the one call that rejects, [findTeeTimes]
    returns the string ["Error finding tee times: "] followed by the
    error, and the last thing it does is close the page it had opened. *)
Theorem X22_unreachable_site_reported
        (w : World) (courseName courseUrl e : string)
        (date : option string) (s : State) :
  resolvesTo w courseName courseUrl ->
  onlyUnreachable w courseUrl e ->
  courseUrl <> googleSearchUrl courseName ->
  exists (before : list Event) (p : nat) (s' : State),
    findTeeTimes w courseName date s =
      (Ret ("Error finding tee times: " ++ e)%string, s') /\
    st_log s' =
      st_log s ++ before ++
      [ Call (OpNewPage None); PageOpened None p;
        Call (OpGoto courseUrl); Call (OpPageClose p) ] /\
    Forall (fun e => benign e = true) before.
Proof.
  intros (Hagent & Hbrowser & Hbody & Hurl) Hf Hneq.
  unfold findTeeTimes.
  remember (googleSearchUrl courseName) as g eqn:Eg in *. clear Eg.
  assert (Hg : String.eqb g courseUrl = false)
    by (apply String.eqb_neq; congruence).
  assert (Hsearch : exists (evs : list Event) (s0 : State),
             Server.browse w [g] true s =
               (Ret [RString (pc_html (w_site w g))], s0) /\
             st_log s0 = st_log s ++ evs /\
             Forall (fun e => benign e = true) evs).
  { unfold Server.browse, Server.browse_loop, Server.browse_url,
      launch, newPage, goto, waitForSelector, content, closeBrowser,
      call, emit, setPage, setResponses.
    unfold try_catch, bind, ret, throw, get, modify. cbn.
    repeat first [ rewrite Hf | rewrite Hg | rewrite Hbody | progress cbn ].
    eexists _, _. split; [reflexivity|]. cbn.
    split; [now rewrite <- !app_assoc | repeat constructor]. }
  destruct Hsearch as (evs & s0 & Hrun & Hlog & Hev).
  rewrite Hagent, Hbrowser. cbn [negb].
  unfold try_catch at 1. unfold bind at 1. rewrite Hrun. cbn [hd_error].
  destruct (pc_html (w_site w g)) as [|c html] eqn:Hhtml; [discriminate|].
  cbv beta iota. rewrite Hurl, (extractCourseUrl_nonempty _ _ Hurl).
  unfold withPage, guarded, discover, release, closePage, newPage, goto,
    call, emit, setPage, setPageVar.
  unfold try_finally, try_catch, bind, ret, throw, get, modify. cbn.
  repeat first [ rewrite Hf | rewrite String.eqb_refl | progress cbn ].
  exists evs, (st_tick s0). eexists. split; [reflexivity|]. cbn.
  split; [|assumption].
  rewrite Hlog. now rewrite <- !app_assoc.
Qed.

Lemma X22_witness :
  fst (findTeeTimes siteDown "Pebble Creek" None init) =
    Ret "Error finding tee times: Error: net::ERR_CONNECTION_TIMED_OUT".
Proof.
  destruct (X22_unreachable_site_reported siteDown "Pebble Creek" courseSite
              "Error: net::ERR_CONNECTION_TIMED_OUT" None init)
    as (before & p & s' & Hrun & _).
  - repeat split; reflexivity.
  - intros n op. reflexivity.
  - discriminate.
  - now rewrite Hrun.
Defined.

(** ** Scheduling *)

(** X23. [scheduleTask] never reports a failure of the scheduler.  With
    an agent in the context and a [when] of one of the three kinds that
    carry an input, the tool answers that the task was scheduled,
    whether or not [agent.schedule] succeeds: its promise is not
    awaited, so a rejection is left unhandled and the message of the
    [catch] block is never returned. *)
Theorem X23_schedule_failure_unreported
        (w : World) (when : When) (description input : string) (s : State) :
  w_agent w = true ->
  whenInput when = Some input ->
  exists s',
    scheduleTask w when description s =
      (Ret ("Task scheduled for type " ++ dq ++ whenType when ++ dq
            ++ " : " ++ input)%string, s') /\
    st_log s' =
      st_log s ++
      match w_schedule w input "executeTask" description with
      | Some e => [Unhandled e]
      | None => []
      end /\
    forall error : string,
      fst (scheduleTask w when description s) <>
        Ret ("Error scheduling task: " ++ error)%string.
Proof.
  intros Ha Hin.
  unfold scheduleTask, requireAgent, detached, emit.
  rewrite Ha, Hin. cbn [negb].
  unfold try_catch, bind, ret, modify.
  destruct (w_schedule w input "executeTask" description) as [e|]; cbn.
  - eexists. repeat split. discriminate.
  - exists s. rewrite app_nil_r. repeat split. discriminate.
Qed.

Lemma X23_witness :
  exists s',
    scheduleTask schedulerDown (Cron "0 8 * * *") "water the greens" init =
      (Ret ("Task scheduled for type " ++ dq ++ "cron" ++ dq
            ++ " : 0 8 * * *")%string, s') /\
    st_log s' = [Unhandled "Error: storage unavailable"].
Proof.
  destruct (X23_schedule_failure_unreported schedulerDown (Cron "0 8 * * *")
              "water the greens" "0 8 * * *" init eq_refl eq_refl)
    as (s' & Hrun & Hlog & _).
  exists s'. split; [exact Hrun | exact Hlog].
Defined.

(** ** Selectors and the mode of the document *)

(** The mode of the document only bears on selectors with class names. *)
Lemma matches_classFree (sel : Selector) (n : Node) (q q' : bool) :
  classFree sel = true -> matches q sel n = matches q' sel n.
Proof.
  unfold classFree, matches.
  induction sel as [|c sel IH]; simpl; [reflexivity|].
  intros H. apply andb_prop in H as [Hc Hsel].
  rewrite (IH Hsel). f_equal.
  clear IH Hsel. induction c as [|x c IHc]; simpl; [reflexivity|].
  simpl in Hc. apply andb_prop in Hc as [Hx Hc].
  rewrite (IHc Hc). f_equal.
  destruct x; try reflexivity. discriminate.
Qed.

(** [el.querySelector(sel)] in a document of either mode, for a selector
    without class names. *)
Lemma querySelectorIn_mode (sel : Selector) (el : Node) (q : bool) :
  classFree sel = true ->
  hd_error (filter (matches q sel) (descendants el)) = querySelectorIn sel el.
Proof.
  intros H. unfold querySelectorIn. f_equal.
  apply filter_ext. intros n. now apply matches_classFree.
Qed.

(** In quirks mode a class selector matches without regard to case, in
    standards mode it does not. *)
Example class_selector_modes :
  let picker := Element "DIV" [("class", "DatePicker")] true [] in
  let root := Element "HTML" [] true [Element "BODY" [] true [picker]] in
  querySelector [[ClassSel "datepicker"]]
    {| quirksMode := true; documentElement := root |} = Some picker /\
  querySelector [[ClassSel "datepicker"]] (standards root) = None.
Proof. split; reflexivity. Qed.

(** ** What the waits look at *)

(** The bounded wait looks at the first match only.  On a page whose
    first date input is hidden and whose second is visible, every
    strategy times out or finds nothing, and nothing is written. *)
Example hidden_first_input :
  let hidden := Element "INPUT" [("type", "date")] false [] in
  let shown := Element "INPUT" [("type", "date")] true [] in
  let run := setDate calm dateSelectors "2024-06-01"
               (onPage (pageOf teeTimesUrl [hidden; shown])) in
  fst run = Ret false /\
  forallb (fun e => negb (written e)) (st_log (snd run)) = true /\
  length (st_log (snd run)) = 6.
Proof. repeat split; vm_compute; reflexivity. Qed.

(** On a landing page whose first link is hidden, the wait for a link
    times out although a later link is visible and matches: its [href]
    is not read, and the click fallback clicks it. *)
Example hidden_first_link :
  let hidden :=
    Element "A" [("href", "https://pebblecreek-golf.example/about")] false
      [TextNode "About us"] in
  let run := findTeeTimes
               (worldOf (siteWith [hidden; book])
                        (fun _ => Some "https://pebblecreek-golf.example/popup"))
               "Pebble Creek" None init in
  fst run = Ret "https://pebblecreek-golf.example/popup" /\
  existsb (fun e => negb (noClick e)) (st_log (snd run)) = true.
Proof. split; vm_compute; reflexivity. Qed.
